(** * pkg/tar: extraction of tar archives onto a file system

    A shallow embedding of [pkg/tar/tar.go] (package [tar] of rkt) and the
    properties of its four functions: [ExtractTar], [ExtractFile],
    [ExtractFileFromTar] and [makedev].

    The Go file calls into the standard library ([path/filepath], [strings],
    [fmt], [os], [syscall], [archive/tar], [io]).  Those calls are modelled in
    the modules [Int], [Filepath], [Errors], [FileMode], [Tar] and [OS] below; the
    functions of the repository itself follow in [Section Extract], one Rocq
    definition per Go function, under the Go names. *)

From Stdlib Require Import ZArith Lia Ascii String List Bool DecimalString.
From stdpp Require Import gmap strings list fin_maps.

Local Open Scope Z_scope.

(** ** Machine integers

    Go's [int] is 64 bits wide on the platforms rkt supports (linux/amd64).
    Values are kept in [Z]; the two conversions that [makedev] writes,
    [uint64(x)] and [int(x)], reduce modulo [2^64] to the unsigned and to the
    two's-complement signed range. *)
Module Int.

Definition to_uint64 (z : Z) : Z := z mod 2 ^ 64.

Definition to_int (z : Z) : Z :=
  let u := z mod 2 ^ 64 in
  if u <? 2 ^ 63 then u else u - 2 ^ 64.

(** [x << n] on an [int]: the shifted value, wrapped. *)
Definition shl_int (x n : Z) : Z := to_int (Z.shiftl x n).

(** [x << n] on a [uint64]. *)
Definition shl_uint64 (x n : Z) : Z := to_uint64 (Z.shiftl x n).

Definition in_int (z : Z) : Prop := - 2 ^ 63 <= z < 2 ^ 63.

End Int.

(** ** The device-number helper of tar.go

    [return (minor & 0xff) | (major & 0xfff << 8) |
            int((uint64(minor & ^0xff) << 12)) | int(uint64(major & ^0xfff)<<32)]

    In Go [&] and [<<] have the same precedence and associate to the left, so
    [major & 0xfff << 8] is [(major & 0xfff) << 8]. *)
Definition makedev (major minor : Z) : Z :=
  Z.lor
    (Z.lor
       (Z.lor (Z.land minor 0xff)
              (Int.shl_int (Z.land major 0xfff) 8))
       (Int.to_int
          (Int.shl_uint64 (Int.to_uint64 (Z.land minor (Z.lnot 0xff))) 12)))
    (Int.to_int
       (Int.shl_uint64 (Int.to_uint64 (Z.land major (Z.lnot 0xfff))) 32)).

(** The composite device number as the specification writes it, over
    unbounded integers: low 8 bits of the minor, low 12 bits of the major
    shifted by 8, the rest of the minor shifted by 12, the rest of the major
    shifted by 32. *)
Definition dev_encoding (major minor : Z) : Z :=
  Z.lor
    (Z.lor
       (Z.lor (Z.land minor 0xff) (Z.shiftl (Z.land major 0xfff) 8))
       (Z.shiftl (Z.land minor (Z.lnot 0xff)) 12))
    (Z.shiftl (Z.land major (Z.lnot 0xfff)) 32).

(** ** path/filepath and strings (Unix)

    [Clean] follows the rules of Go's [filepath.Clean]: runs of separators
    collapse, [.] elements disappear, an inner [..] removes the element before
    it, a [..] at the root of a rooted path disappears, leading [..] elements
    of a relative path stay, and the empty result is [.].  The path is handled
    element by element: [out] is the stack of elements written so far, newest
    first, and [dotdot] counts the leading [..] elements that must stay (Go
    keeps the same two pieces of state as indices into its output buffer). *)
Module Filepath.

Definition Separator : ascii := "/"%char.

Definition IsPathSeparator (c : ascii) : bool := Ascii.eqb c Separator.

(** The elements between separators, empty ones included. *)
Fixpoint elements (s : string) : list string :=
  match s with
  | EmptyString => [EmptyString]
  | String c s' =>
      if IsPathSeparator c then EmptyString :: elements s'
      else match elements s' with
           | e :: es => String c e :: es
           | [] => [String c EmptyString]
           end
  end.

Definition rooted (path : string) : bool :=
  match path with
  | String c _ => IsPathSeparator c
  | EmptyString => false
  end.

Definition clean_step (is_rooted : bool) (st : list string * nat) (e : string)
  : list string * nat :=
  let '(out, dotdot) := st in
  if String.eqb e "" then st
  else if String.eqb e "." then st
  else if String.eqb e ".." then
    if (dotdot <? length out)%nat then (tl out, dotdot)
    else if is_rooted then st
    else (e :: out, S dotdot)
  else (e :: out, dotdot).

Definition sep_string : string := String Separator EmptyString.

Definition join_elements (es : list string) : string :=
  String.concat sep_string es.

Definition Clean (path : string) : string :=
  let is_rooted := rooted path in
  let '(out, _) := fold_left (clean_step is_rooted) (elements path) ([], 0%nat) in
  match rev out with
  | [] => if is_rooted then sep_string else "."
  | es => ((if is_rooted then sep_string else "") +:+ join_elements es)%string
  end.

(** [filepath.Join(a, b)]: the first non-empty argument onwards, joined by the
    separator and cleaned; the empty string when both are empty. *)
Definition Join (a b : string) : string :=
  if String.eqb a "" then
    if String.eqb b "" then "" else Clean b
  else Clean (a +:+ sep_string +:+ b).

Fixpoint has_separator (s : string) : bool :=
  match s with
  | EmptyString => false
  | String c s' => IsPathSeparator c || has_separator s'
  end.

(** [path[:i+1]] for [i] the index of the last separator (nothing when there
    is none). *)
Fixpoint through_last_separator (s : string) : string :=
  match s with
  | EmptyString => EmptyString
  | String c s' =>
      if has_separator s then String c (through_last_separator s')
      else EmptyString
  end.

(** [filepath.Dir]: all but the last element, cleaned. *)
Definition Dir (path : string) : string := Clean (through_last_separator path).

(** [strings.HasPrefix(s, prefix)]. *)
Definition HasPrefix (s prefix : string) : bool := String.prefix prefix s.

(** Containment as the specification means it: [path] is the root or lies
    below it, element by element on the cleaned paths (not a comparison of
    characters).  A path lies strictly outside the root when this is false. *)
Definition path_elements (path : string) : list string :=
  filter (fun e => negb (String.eqb e "") && negb (String.eqb e "."))
         (elements (Clean path)).

Fixpoint below (root path : list string) : bool :=
  match root, path with
  | [], [] => true
  | [], e :: _ => negb (String.eqb e "..")
  | _ :: _, [] => false
  | r :: root', e :: path' => String.eqb r e && below root' path'
  end.

Definition inside_root (root path : string) : bool :=
  Bool.eqb (rooted root) (rooted path)
  && below (path_elements root) (path_elements path).

End Filepath.

(** ** Go error values

    An [error] is an interface value: a dynamic type with its fields.  The
    program meets four dynamic types: [*errors.errorString] (what [fmt.Errorf]
    and [errors.New] build), [*os.PathError], [*os.LinkError] and
    [syscall.Errno].  [Error] is the method of the interface. *)
Module Errors.

Inductive Errno :=
  ENOENT | EEXIST | ENOTDIR | EISDIR | EPERM | ELOOP | EINVAL | ENXIO | EBADF.

Definition Errno_Error (e : Errno) : string :=
  match e with
  | ENOENT => "no such file or directory"
  | EEXIST => "file exists"
  | ENOTDIR => "not a directory"
  | EISDIR => "is a directory"
  | EPERM => "operation not permitted"
  | ELOOP => "too many levels of symbolic links"
  | EINVAL => "invalid argument"
  | ENXIO => "no such device or address"
  | EBADF => "bad file descriptor"
  end.

Inductive error :=
  | errorString (s : string)
  | PathError (op path : string) (err : Errno)
  | LinkError (op old new : string) (err : Errno)
  | SyscallErrno (err : Errno).

Definition Error (e : error) : string :=
  match e with
  | errorString s => s
  | PathError op path err => op +:+ " " +:+ path +:+ ": " +:+ Errno_Error err
  | LinkError op old new err =>
      op +:+ " " +:+ old +:+ " " +:+ new +:+ ": " +:+ Errno_Error err
  | SyscallErrno err => Errno_Error err
  end.

(** The decimal text [fmt] prints for an unsigned integer under [%v]. *)
Definition decimal (n : N) : string :=
  DecimalString.NilZero.string_of_uint (N.to_uint n).

End Errors.

Import Filepath Errors.

(** ** os.FileMode *)
Module FileMode.

(** Mode bits of [os.FileMode]. *)
Definition ModeDir : Z := Z.shiftl 1 31.
Definition ModeSymlink : Z := Z.shiftl 1 27.
Definition ModeDevice : Z := Z.shiftl 1 26.
Definition ModeNamedPipe : Z := Z.shiftl 1 25.
Definition ModeSocket : Z := Z.shiftl 1 24.
Definition ModeSetuid : Z := Z.shiftl 1 23.
Definition ModeSetgid : Z := Z.shiftl 1 22.
Definition ModeCharDevice : Z := Z.shiftl 1 21.
Definition ModeSticky : Z := Z.shiftl 1 20.
Definition ModePerm : Z := 0x1ff.        (* 0777 *)

(** Bits of a Unix [mode_t]. *)
Definition S_ISUID : Z := 0x800.         (* 04000 *)
Definition S_ISGID : Z := 0x400.         (* 02000 *)
Definition S_ISVTX : Z := 0x200.         (* 01000 *)
Definition S_IFMT : Z := 0xf000.         (* 0170000 *)
Definition S_IFCHR : Z := 0x2000.        (* 020000 *)
Definition S_IFBLK : Z := 0x6000.        (* 060000 *)

Definition has_bit (mode bit : Z) : bool := negb (Z.land mode bit =? 0).

(** [syscallMode]: the bits of an [os.FileMode] that the kernel takes as a
    [mode_t]: permissions, and setuid, setgid and sticky at their Unix
    positions. *)
Definition syscallMode (i : Z) : Z :=
  let o := Z.land i ModePerm in
  let o := if has_bit i ModeSetuid then Z.lor o S_ISUID else o in
  let o := if has_bit i ModeSetgid then Z.lor o S_ISGID else o in
  let o := if has_bit i ModeSticky then Z.lor o S_ISVTX else o in
  o.

End FileMode.

Import FileMode.

(** ** archive/tar: headers and the sequential reader *)
Module Tar.

(** The fields of [tar.Header] that tar.go reads. *)
Record Header := mkHeader {
  Name : string;
  Mode : Z;            (* int64: permission and mode bits *)
  Typeflag : ascii;    (* byte *)
  Linkname : string;
  Devmajor : Z;        (* int64 *)
  Devminor : Z         (* int64 *)
}.

Definition TypeReg : ascii := "0"%char.
Definition TypeRegA : ascii := "000"%char.
Definition TypeLink : ascii := "1"%char.
Definition TypeSymlink : ascii := "2"%char.
Definition TypeChar : ascii := "3"%char.
Definition TypeBlock : ascii := "4"%char.
Definition TypeDir : ascii := "5"%char.
Definition TypeFifo : ascii := "6"%char.

(** Mode bits of a tar header. *)
Definition c_ISUID : Z := 0x800.         (* 04000 *)
Definition c_ISGID : Z := 0x400.         (* 02000 *)
Definition c_ISVTX : Z := 0x200.         (* 01000 *)
Definition c_ISDIR : Z := 0x4000.        (* 040000 *)
Definition c_ISFIFO : Z := 0x1000.       (* 010000 *)
Definition c_ISLNK : Z := 0xa000.        (* 0120000 *)
Definition c_ISBLK : Z := 0x6000.        (* 060000 *)
Definition c_ISCHR : Z := 0x2000.        (* 020000 *)
Definition c_ISSOCK : Z := 0xc000.       (* 0140000 *)

Definition set_if (b : bool) (bits mode : Z) : Z :=
  if b then Z.lor mode bits else mode.

(** [hdr.FileInfo().Mode()]: the header's mode as an [os.FileMode] (a
    [uint32]): the nine permission bits, the setuid, setgid and sticky bits
    moved to their [os] positions, and the type bits derived from the mode
    and from the type flag. *)
Definition FileInfo_Mode (h : Header) : Z :=
  let raw := Mode h mod 2 ^ 32 in
  let mode := Z.land raw ModePerm in
  let mode := set_if (negb (Z.land (Mode h) c_ISUID =? 0)) ModeSetuid mode in
  let mode := set_if (negb (Z.land (Mode h) c_ISGID =? 0)) ModeSetgid mode in
  let mode := set_if (negb (Z.land (Mode h) c_ISVTX =? 0)) ModeSticky mode in
  let m := Z.land raw (Z.lnot 0xfff) in
  let mode := set_if (m =? c_ISDIR) ModeDir mode in
  let mode := set_if (m =? c_ISFIFO) ModeNamedPipe mode in
  let mode := set_if (m =? c_ISLNK) ModeSymlink mode in
  let mode := set_if (m =? c_ISBLK) ModeDevice mode in
  let mode := set_if (m =? c_ISCHR) (Z.lor ModeDevice ModeCharDevice) mode in
  let mode := set_if (m =? c_ISSOCK) ModeSocket mode in
  let t := Typeflag h in
  if Ascii.eqb t TypeLink || Ascii.eqb t TypeSymlink then Z.lor mode ModeSymlink
  else if Ascii.eqb t TypeChar then Z.lor mode (Z.lor ModeDevice ModeCharDevice)
  else if Ascii.eqb t TypeBlock then Z.lor mode ModeDevice
  else if Ascii.eqb t TypeDir then Z.lor mode ModeDir
  else if Ascii.eqb t TypeFifo then Z.lor mode ModeNamedPipe
  else mode.

(** What reading the current entry through the [*tar.Reader] yields: the
    bytes that can be read and, when the stream breaks before the end of the
    entry, the error of the failing read. *)
Record Content := mkContent {
  data : list Byte.byte;
  read_err : option error
}.

(** An archive stream as [Next] hands it out: entries in order, then either
    the clean end ([io.EOF], [ending = None]) or a read error. *)
Record Reader := mkReader {
  entries : list (Header * Content);
  ending : option error
}.

Inductive NextResult :=
  | NextHeader (h : Header) (c : Content)
  | NextEOF
  | NextError (e : error).

(** [tr.Next()]: the result and the reader advanced past it. *)
Definition Next (tr : Reader) : NextResult * Reader :=
  match entries tr with
  | (h, c) :: rest => (NextHeader h c, mkReader rest (ending tr))
  | [] => match ending tr with
          | None => (NextEOF, tr)
          | Some e => (NextError e, tr)
          end
  end.

End Tar.

Import Tar.

(** ** os, syscall and io: the file system the program runs against

    The state of the world is a name space (cleaned absolute path to inode
    number), an inode table, the working directory and the process umask.
    Several names may share one inode (hard links).

    Scope of the model: a path is looked up by its cleaned absolute spelling,
    so symbolic links are stored and can be read back but are not followed,
    and a device node is a name with a number and no driver behind it.  Where
    the kernel would follow a link ([stat], [open], a link in the middle of a
    path) the call stops here with [ELOOP]; where it would hand an [open] to
    a driver the call stops with [ENXIO].  The model therefore describes the
    program on the runs that neither pass through a symbolic link nor open a
    device node; on the others the program may go on where the model stops.
    Permission checks are left out (the extractor runs privileged); writes do
    not run out of space; which [Errno] a refused creation reports is decided
    from the name and its parent alone. *)
Module OS.

Inductive Inode :=
  | IDir (mode : Z)
  | IReg (mode : Z) (content : list Byte.byte)
  | ISymlink (target : string)
  | IDev (mode : Z) (dev : Z).

Record World := mkWorld {
  names : gmap string nat;
  inodes : gmap nat Inode;
  cwd : string;
  umask : Z
}.

Definition with_names (f : gmap string nat -> gmap string nat) (w : World) :=
  mkWorld (f (names w)) (inodes w) (cwd w) (umask w).
Definition with_inodes (f : gmap nat Inode -> gmap nat Inode) (w : World) :=
  mkWorld (names w) (f (inodes w)) (cwd w) (umask w).
Definition with_umask (m : Z) (w : World) :=
  mkWorld (names w) (inodes w) (cwd w) m.

(** Results of calls that may fail, and computations over the world.  A
    failing call keeps the world it has reached: nothing is rolled back. *)
Inductive res (A : Type) :=
  | Ok (a : A)
  | Err (e : error).
Arguments Ok {A} a.
Arguments Err {A} e.

Definition M (A : Type) : Type := World -> res A * World.

Definition ret {A} (a : A) : M A := fun w => (Ok a, w).
Definition fail {A} (e : error) : M A := fun w => (Err e, w).
Definition bind {A B} (m : M A) (k : A -> M B) : M B :=
  fun w => match m w with
           | (Ok a, w') => k a w'
           | (Err e, w') => (Err e, w')
           end.

(** The name under which the kernel finds [path]. *)
Definition key (w : World) (path : string) : string :=
  if rooted path then Clean path else Clean (cwd w +:+ sep_string +:+ path).

Definition node_at (w : World) (k : string) : option Inode :=
  match names w !! k with
  | Some i => inodes w !! i
  | None => None
  end.

(** The object a path names, if any ([lstat] without the error). *)
Definition lookup (w : World) (path : string) : option Inode :=
  if String.eqb path "" then None else node_at w (key w path).

Definition IsDir (n : Inode) : bool :=
  match n with IDir _ => true | _ => false end.

(** [os.Lstat(path)]: the object at the path itself. *)
Definition Lstat (path : string) : M Inode :=
  fun w => match lookup w path with
           | Some n => (Ok n, w)
           | None => (Err (PathError "lstat" path ENOENT), w)
           end.

(** [os.Stat(path)].  At a symbolic link the kernel would report on what the
    link points to; the model does not follow links and ends the call with
    [ELOOP] (see the scope above). *)
Definition Stat (path : string) : M Inode :=
  fun w => match lookup w path with
           | Some (ISymlink _) => (Err (PathError "stat" path ELOOP), w)
           | Some n => (Ok n, w)
           | None => (Err (PathError "stat" path ENOENT), w)
           end.

(** Whether a new name [k] can be entered: [None] when it can, the [Errno]
    of the refusal otherwise. *)
Definition creatable (w : World) (k : string) : option Errno :=
  match names w !! k with
  | Some _ => Some EEXIST
  | None =>
      match node_at w (Dir k) with
      | None => Some ENOENT
      | Some (IDir _) => None
      | Some (ISymlink _) => Some ELOOP
      | Some _ => Some ENOTDIR
      end
  end.

Definition refusal (w : World) (path : string) : option Errno :=
  if String.eqb path "" then Some ENOENT else creatable w (key w path).

(** A new inode under the name [k]. *)
Definition add_node (k : string) (n : Inode) (w : World) : World :=
  let i := fresh (dom (inodes w)) in
  with_names (<[k := i]>) (with_inodes (<[i := n]>) w).

Definition masked (w : World) (mode allowed : Z) : Z :=
  Z.land (Z.land mode (Z.lnot (umask w))) allowed.

(** [os.Mkdir(name, perm)]: [mkdir(2)] with [syscallMode(perm)].  The kernel
    clears the umask bits and keeps permissions and sticky (01777). *)
Definition Mkdir (name : string) (perm : Z) : M unit :=
  fun w => match refusal w name with
           | Some e => (Err (PathError "mkdir" name e), w)
           | None =>
               (Ok tt, add_node (key w name)
                                (IDir (masked w (syscallMode perm) 0x3ff)) w)
           end.

(** The two index loops of [os.MkdirAll]: skip trailing separators, then
    scan backward over the last element. *)
Definition sep_at (path : string) (i : nat) : bool :=
  match String.get i path with
  | Some c => IsPathSeparator c
  | None => false
  end.

Fixpoint skip_trailing_separators (path : string) (i : nat) : nat :=
  match i with
  | O => O
  | S i' => if sep_at path i' then skip_trailing_separators path i' else i
  end.

Fixpoint scan_back_element (path : string) (j : nat) : nat :=
  match j with
  | O => O
  | S j' => if sep_at path j' then j else scan_back_element path j'
  end.

(** [os.MkdirAll(path, perm)].  The recursion is on a proper prefix of the
    path; [fuel] bounds its depth ([None] when it runs out, which
    [MkdirAll_fuel_enough] shows does not happen from [MkdirAll]). *)
Fixpoint MkdirAll_rec (fuel : nat) (path : string) (perm : Z) (w : World)
  : option (res unit * World) :=
  match fuel with
  | O => None
  | S fuel' =>
      match Stat path w with
      | (Ok dir, _) =>
          if IsDir dir then Some (Ok tt, w)
          else Some (Err (PathError "mkdir" path ENOTDIR), w)
      | (Err _, _) =>
          let i := skip_trailing_separators path (String.length path) in
          let j := scan_back_element path i in
          let parent :=
            if (1 <? j)%nat
            then MkdirAll_rec fuel' (String.substring 0 (j - 1) path) perm w
            else Some (Ok tt, w) in
          match parent with
          | None => None
          | Some (Err e, w1) => Some (Err e, w1)
          | Some (Ok _, w1) =>
              match Mkdir path perm w1 with
              | (Ok _, w2) => Some (Ok tt, w2)
              | (Err e, w2) =>
                  match Lstat path w2 with
                  | (Ok dir, _) =>
                      if IsDir dir then Some (Ok tt, w2) else Some (Err e, w2)
                  | (Err _, _) => Some (Err e, w2)
                  end
              end
          end
      end
  end.

Definition MkdirAll (path : string) (perm : Z) : M unit :=
  fun w => match MkdirAll_rec (S (String.length path)) path perm w with
           | Some r => r
           | None => (Err (PathError "mkdir" path EINVAL), w)
           end.

(** Open files.  A [*os.File] is the inode it was opened on and the name it
    was opened under. *)
Record File := mkFile {
  file_ino : nat;
  file_name : string
}.

Definition O_RDONLY : Z := 0x0.
Definition O_WRONLY : Z := 0x1.
Definition O_RDWR : Z := 0x2.
Definition O_CREATE : Z := 0x40.
Definition O_TRUNC : Z := 0x200.

Definition wants_write (flag : Z) : bool :=
  has_bit flag O_WRONLY || has_bit flag O_RDWR.

(** [os.OpenFile(name, flag, perm)]: [open(2)] with [syscallMode(perm)].  An
    existing regular file is opened as it is, cut to length zero only under
    [O_TRUNC]; its mode is not touched.  A missing one is created under
    [O_CREATE] with the mode cleared of the umask bits.  The two cases the
    model leaves out end the call: a symbolic link at the name (the kernel
    opens what it points to) with [ELOOP], a device node (the kernel asks its
    driver) with [ENXIO]. *)
Definition OpenFile (name : string) (flag perm : Z) : M File :=
  fun w =>
    let failed e := (Err (PathError "open" name e), w) in
    if String.eqb name "" then failed ENOENT else
    let k := key w name in
    match names w !! k with
    | Some i =>
        match inodes w !! i with
        | Some (IReg m content) =>
            (Ok (mkFile i name),
             if has_bit flag O_TRUNC && wants_write flag
             then with_inodes (<[i := IReg m []]>) w else w)
        | Some (IDir _) =>
            if wants_write flag || has_bit flag O_CREATE then failed EISDIR
            else (Ok (mkFile i name), w)
        | Some (ISymlink _) => failed ELOOP
        | Some (IDev _ _) => failed ENXIO
        | None => failed ENOENT
        end
    | None =>
        if has_bit flag O_CREATE then
          match creatable w k with
          | Some e => failed e
          | None =>
              let i := fresh (dom (inodes w)) in
              (Ok (mkFile i name),
               add_node k (IReg (masked w (syscallMode perm) 0xfff) []) w)
          end
        else failed ENOENT
    end.

(** [os.Open(name)]. *)
Definition Open (name : string) : M File := OpenFile name O_RDONLY 0.

(** [f.Close()]. *)
Definition Close (f : File) : M unit := ret tt.

(** [io.Copy(f, tr)] on a file just opened: the bytes read from the entry are
    written from offset zero over what the file holds; bytes of the file
    beyond them stay.  A failing read ends the copy with its error, after the
    bytes read before it are written. *)
Definition Copy (f : File) (tr : Content) : M unit :=
  fun w =>
    match inodes w !! file_ino f with
    | Some (IReg m old) =>
        let w' :=
          with_inodes
            (<[file_ino f := IReg m (data tr ++ drop (length (data tr)) old)]>) w in
        match read_err tr with
        | None => (Ok tt, w')
        | Some e => (Err e, w')
        end
    | _ => (Err (PathError "write" (file_name f) EBADF), w)
    end.

(** [f.Chmod(mode)]: [fchmod(2)] with [syscallMode(mode)]; the umask plays no
    part. *)
Definition Chmod (f : File) (mode : Z) : M unit :=
  fun w =>
    let bits := Z.land (syscallMode mode) 0xfff in
    match inodes w !! file_ino f with
    | Some (IDir _) => (Ok tt, with_inodes (<[file_ino f := IDir bits]>) w)
    | Some (IReg _ content) =>
        (Ok tt, with_inodes (<[file_ino f := IReg bits content]>) w)
    | Some (IDev m dev) =>
        (Ok tt, with_inodes
                  (<[file_ino f := IDev (Z.lor (Z.land m S_IFMT) bits) dev]>) w)
    | _ => (Err (PathError "chmod" (file_name f) EBADF), w)
    end.

(** [os.Link(oldname, newname)]: a second name for the inode of [oldname]. *)
Definition Link (oldname newname : string) : M unit :=
  fun w =>
    let failed e := (Err (LinkError "link" oldname newname e), w) in
    if String.eqb oldname "" then failed ENOENT else
    match names w !! key w oldname with
    | None => failed ENOENT
    | Some i =>
        match inodes w !! i with
        | None => failed ENOENT
        | Some (IDir _) => failed EPERM
        | Some _ =>
            match refusal w newname with
            | Some e => failed e
            | None => (Ok tt, with_names (<[key w newname := i]>) w)
            end
        end
    end.

(** [os.Symlink(oldname, newname)]: a new symbolic link holding the text
    [oldname], which is not looked up. *)
Definition Symlink (oldname newname : string) : M unit :=
  fun w =>
    let failed e := (Err (LinkError "symlink" oldname newname e), w) in
    if String.eqb oldname "" then failed ENOENT else
    match refusal w newname with
    | Some e => failed e
    | None => (Ok tt, add_node (key w newname) (ISymlink oldname) w)
    end.

(** [syscall.Mknod(path, mode, dev)]: [mknod(2)].  The kernel takes the mode
    as 16 bits and the device number as 32 bits (an [unsigned int]: twelve
    bits of major, twenty of minor), so of the [int] that Go passes only the
    low 32 bits reach the node, and they are what [stat] shows as its
    [st_rdev].  The program asks for character and block devices only. *)
Definition Mknod (path : string) (mode dev : Z) : M unit :=
  fun w =>
    let m := mode mod 2 ^ 16 in
    let kind := Z.land m S_IFMT in
    if negb ((kind =? S_IFCHR) || (kind =? S_IFBLK)) then
      (Err (SyscallErrno EINVAL), w)
    else
      match refusal w path with
      | Some e => (Err (SyscallErrno e), w)
      | None =>
          (Ok tt, add_node (key w path)
                           (IDev (Z.lor kind (masked w m 0xfff))
                                 (Z.land dev 0xffffffff)) w)
      end.

(** [syscall.Umask(mask)]: sets the file-creation mask to the permission
    bits of [mask] and returns the previous one. *)
Definition Umask (mask : Z) (w : World) : Z * World :=
  (umask w, with_umask (Z.land mask 0x1ff) w).

(** What [readlink] returns at a path. *)
Definition readlink (w : World) (path : string) : option string :=
  match lookup w path with
  | Some (ISymlink target) => Some target
  | _ => None
  end.

Declare Scope os_scope.
Delimit Scope os_scope with os.
Bind Scope os_scope with M.
Notation "x <- m ;; k" := (bind m (fun x => k))
  (at level 100, m at next level, right associativity) : os_scope.
Notation "m ;;; k" := (bind m (fun _ => k))
  (at level 100, right associativity) : os_scope.

End OS.

Import OS.

(** ** pkg/tar/tar.go *)
Section Extract.

(** [strconv.Quote], the text [fmt] prints for a string under [%q].  The
    program only places its result inside error messages. *)
Variable Quote : string -> string.

Local Open Scope os_scope.

Definition DEFAULT_DIR_MODE : Z := 0x1ed.   (* 0755 *)

(** [type insecureLinkError error]: a named interface type.  Converting an
    [error] to it keeps the value and its dynamic type. *)
Definition insecureLinkError (e : error) : error := e.

(** [fmt.Errorf("error extracting tarball: %v", err)]. *)
Definition wrap_extracting (err : error) : error :=
  errorString ("error extracting tarball: " +:+ Error err).

Definition insecure_link_message (p linkname : string) : string :=
  "insecure link " +:+ Quote p +:+ " -> " +:+ Quote linkname.

Definition insecure_symlink_message (p linkname : string) : string :=
  "insecure symlink " +:+ Quote p +:+ " -> " +:+ Quote linkname.

Definition unsupported_type_message (typ : ascii) : string :=
  "unsupported type: " +:+ decimal (N_of_ascii typ).

(** [ExtractFile] extracts the file described by [hdr] from the given tarball
    into the provided directory. *)
Definition ExtractFile (tr : Content) (hdr : Header) (dir : string) : M unit :=
  let p := Join dir (Name hdr) in
  let fi_Mode := FileInfo_Mode hdr in
  let typ := Typeflag hdr in
  (* Create parent dir if it doesn't exists *)
  _ <- MkdirAll (Dir p) DEFAULT_DIR_MODE ;;
  if Ascii.eqb typ TypeReg || Ascii.eqb typ TypeRegA then
    _ <- MkdirAll (Dir p) DEFAULT_DIR_MODE ;;
    f <- OpenFile p (Z.lor O_CREATE O_RDWR) fi_Mode ;;
    fun w => match Copy f tr w with
             | (Err err, w') => (_ <- Close f ;; fail err) w'
             | (Ok _, w') => Close f w'
             end
  else if Ascii.eqb typ TypeDir then
    _ <- MkdirAll p fi_Mode ;;
    d <- Open p ;;
    fun w => match Chmod d fi_Mode w with
             | (Err err, w') => (_ <- Close d ;; fail err) w'
             | (Ok _, w') => Close d w'
             end
  else if Ascii.eqb typ TypeLink then
    let dest := Join dir (Linkname hdr) in
    if negb (HasPrefix dest dir) then
      fail (insecureLinkError
              (errorString (insecure_link_message p (Linkname hdr))))
    else Link dest p
  else if Ascii.eqb typ TypeSymlink then
    let dest := Join (Dir p) (Linkname hdr) in
    if negb (HasPrefix dest dir) then
      fail (insecureLinkError
              (errorString (insecure_symlink_message p (Linkname hdr))))
    else Symlink (Linkname hdr) p
  else if Ascii.eqb typ TypeChar then
    let dev := makedev (Int.to_int (Devmajor hdr)) (Int.to_int (Devminor hdr)) in
    let mode := Z.lor fi_Mode S_IFCHR in
    Mknod p mode dev
  else if Ascii.eqb typ TypeBlock then
    let dev := makedev (Int.to_int (Devmajor hdr)) (Int.to_int (Devminor hdr)) in
    let mode := Z.lor fi_Mode S_IFBLK in
    Mknod p mode dev
  else
    fail (errorString (unsupported_type_message typ)).

(** The [for] loop of [ExtractTar]: one round per [tr.Next()]. *)
Fixpoint extract_entries (es : list (Header * Content)) (ending : option error)
    (dir : string) : M unit :=
  match es with
  | [] =>
      match ending with
      | None => ret tt                          (* io.EOF *)
      | Some err => fail (wrap_extracting err)
      end
  | (hdr, tr) :: rest =>
      fun w => match ExtractFile tr hdr dir w with
               | (Err err, w') => (Err (wrap_extracting err), w')
               | (Ok _, w') => extract_entries rest ending dir w'
               end
  end.

(** [ExtractTar] extracts a tarball (from a [tar.Reader]) into the given
    directory.  The deferred [syscall.Umask(um)] runs on every return. *)
Definition ExtractTar (tr : Reader) (dir : string) : M unit :=
  fun w =>
    let '(um, w0) := Umask 0 w in
    let '(r, w1) := extract_entries (entries tr) (ending tr) dir w0 in
    let '(_, w2) := Umask um w1 in
    (r, w2).

Definition is_regular (typ : ascii) : bool :=
  Ascii.eqb typ TypeReg || Ascii.eqb typ TypeRegA.

(** The type flags that have a [case] in [ExtractFile]. *)
Definition supported (typ : ascii) : bool :=
  is_regular typ || Ascii.eqb typ TypeDir || Ascii.eqb typ TypeLink ||
  Ascii.eqb typ TypeSymlink || Ascii.eqb typ TypeChar || Ascii.eqb typ TypeBlock.

(** [ioutil.ReadAll(tr)] on the current entry. *)
Definition ReadAll (tr : Content) : res (list Byte.byte) :=
  match read_err tr with
  | None => Ok (data tr)
  | Some e => Err e
  end.

(** The [for] loop of [ExtractFileFromTar]. *)
Fixpoint find_file (es : list (Header * Content)) (ending : option error)
    (file : string) : res (list Byte.byte) :=
  match es with
  | [] =>
      match ending with
      | None => Err (errorString "file not found")          (* io.EOF *)
      | Some err => Err (wrap_extracting err)
      end
  | (hdr, tr) :: rest =>
      if negb (String.eqb (Clean (Name hdr)) (Clean file)) then
        find_file rest ending file
      else if negb (is_regular (Typeflag hdr)) then
        Err (errorString "requested file not a regular file")
      else
        match ReadAll tr with
        | Err err => Err (wrap_extracting err)
        | Ok buf => Ok buf
        end
  end.

(** [ExtractFileFromTar] extracts a regular file from the given tar,
    returning its contents as a byte slice. *)
Definition ExtractFileFromTar (tr : Reader) (file : string)
  : res (list Byte.byte) :=
  find_file (entries tr) (ending tr) file.

End Extract.

(** ** Notions used in the statements *)

(** [w'] differs from [w] only by directories of mode [mode] under names that
    showed nothing in [w]. *)
Definition only_adds_dirs (mode : Z) (w w' : World) : Prop :=
  cwd w' = cwd w /\ umask w' = umask w /\
  forall k, node_at w' k = node_at w k \/
            (node_at w k = None /\ node_at w' k = Some (IDir mode)).

(** [w'] has the working directory and the umask of [w], and every directory
    of [w] is a directory of [w'] (its mode may differ). *)
Definition undisturbed (w w' : World) : Prop :=
  cwd w' = cwd w /\ umask w' = umask w /\
  forall k m, node_at w k = Some (IDir m) ->
              exists m', node_at w' k = Some (IDir m').

(** A computation that leaves every world undisturbed. *)
Definition quiet {A} (m : M A) : Prop :=
  forall w, undisturbed w (snd (m w)).

(** The positions of an [os.FileMode] that [syscallMode] reads. *)
Definition mode_t_part : Z :=
  Z.lor ModePerm (Z.lor ModeSetuid (Z.lor ModeSetgid ModeSticky)).

(** The part of [FileInfo().Mode()] before the type bits are added. *)
Definition permission_part (h : Header) : Z :=
  set_if (negb (Z.land (Mode h) c_ISVTX =? 0)) ModeSticky
    (set_if (negb (Z.land (Mode h) c_ISGID =? 0)) ModeSetgid
       (set_if (negb (Z.land (Mode h) c_ISUID =? 0)) ModeSetuid
          (Z.land (Mode h mod 2 ^ 32) ModePerm))).

(** The entries that the dispatch of [ExtractFile] refuses: a type without
    a case, or a link whose destination fails the prefix test. *)
Definition refused_by_dispatch (hdr : Header) (dir : string) : bool :=
  let p := Join dir (Name hdr) in
  let typ := Typeflag hdr in
  negb (supported typ)
  || (Ascii.eqb typ TypeLink && negb (HasPrefix (Join dir (Linkname hdr)) dir))
  || (Ascii.eqb typ TypeSymlink
      && negb (HasPrefix (Join (Dir p) (Linkname hdr)) dir)).

(** The comparison of the scan: cleaned entry name against cleaned wanted
    name. *)
Definition names_file (file : string) (entry : Header * Content) : bool :=
  String.eqb (Clean (Name (fst entry))) (Clean file).

(** The decoding that goes with the device-number encoding (glibc's
    [gnu_dev_major] and [gnu_dev_minor], on 32-bit results); it serves to show
    that [makedev] loses nothing. *)
Definition dev_major (dev : Z) : Z :=
  Z.lor (Z.land (Z.shiftr dev 8) 0xfff) (Z.land (Z.shiftr dev 32) 0xfffff000).

Definition dev_minor (dev : Z) : Z :=
  Z.lor (Z.land dev 0xff) (Z.land (Z.shiftr dev 12) 0xffffff00).

(** Two inodes of the same kind: both directories, both regular files, two
    symbolic links with the same target, or two device nodes of the same type
    and device number. *)
Definition same_kind (n n' : Inode) : Prop :=
  match n, n' with
  | IDir _, IDir _ => True
  | IReg _ _, IReg _ _ => True
  | ISymlink target, ISymlink target' => target = target'
  | IDev m dev, IDev m' dev' => Z.land m S_IFMT = Z.land m' S_IFMT /\ dev = dev'
  | _, _ => False
  end.

(** [w'] has the working directory of [w], and every object of [w] is still
    in [w'] under its name, with its kind. *)
Definition steady (w w' : World) : Prop :=
  cwd w' = cwd w /\
  forall k n, node_at w k = Some n ->
              exists n', node_at w' k = Some n' /\ same_kind n n'.

(** A computation that leaves every world steady. *)
Definition steadily {A} (m : M A) : Prop :=
  forall w, steady w (snd (m w)).

(** The type bits [ExtractFile] asks [Mknod] for. *)
Definition device_kind (typ : ascii) : Z :=
  if Ascii.eqb typ TypeChar then S_IFCHR else S_IFBLK.

(** ** Concrete inputs used by the examples below *)

Definition double_quote : string := String (ascii_of_nat 34) EmptyString.

(** [strconv.Quote] on text made of printable ASCII without quotes and
    backslashes: the text between two double quotes. *)
Definition quote_plain (s : string) : string :=
  double_quote +:+ s +:+ double_quote.

Definition bytes (s : string) : list Byte.byte := list_byte_of_string s.

Definition no_content : Content := mkContent [] None.

(** [/], [/tmp] and [/tmp/out], all directories of mode 0755; the process
    runs in [/] with umask 022. *)
Definition empty_out : World :=
  mkWorld (list_to_map [("/", 0%nat); ("/tmp", 1%nat); ("/tmp/out", 2%nat)])
          (list_to_map [(0%nat, IDir 0x1ed); (1%nat, IDir 0x1ed);
                        (2%nat, IDir 0x1ed)])
          "/" 0x12.

(** [empty_out] with a directory [/tmp/out/d] of mode 0700 and a file
    [/tmp/out/f] of mode 0600 holding eleven bytes. *)
Definition used_out : World :=
  mkWorld (list_to_map [("/", 0%nat); ("/tmp", 1%nat); ("/tmp/out", 2%nat);
                        ("/tmp/out/d", 3%nat); ("/tmp/out/f", 4%nat)])
          (list_to_map [(0%nat, IDir 0x1ed); (1%nat, IDir 0x1ed);
                        (2%nat, IDir 0x1ed); (3%nat, IDir 0x1c0);
                        (4%nat, IReg 0x180 (bytes "hello world"))])
          "/" 0x12.

(** [empty_out] with a file outside the destination, [/tmp/outside/secret]. *)
Definition neighbour_out : World :=
  mkWorld (list_to_map [("/", 0%nat); ("/tmp", 1%nat); ("/tmp/out", 2%nat);
                        ("/tmp/outside", 3%nat);
                        ("/tmp/outside/secret", 4%nat)])
          (list_to_map [(0%nat, IDir 0x1ed); (1%nat, IDir 0x1ed);
                        (2%nat, IDir 0x1ed); (3%nat, IDir 0x1ed);
                        (4%nat, IReg 0x180 (bytes "key"))])
          "/" 0x12.

(** [empty_out] seen from inside the destination: the process runs in
    [/tmp/out]. *)
Definition inside_out : World :=
  mkWorld (names empty_out) (inodes empty_out) "/tmp/out" 0x12.

Definition sub_symlink : Header := mkHeader "sub/l" 0x1ff TypeSymlink "../f" 0 0.

Definition sub_hardlink : Header := mkHeader "sub/l" 0x1ff TypeLink "../f" 0 0.

Definition fifo_in_new_dir : Header := mkHeader "x/p" 0x1a4 TypeFifo "" 0 0.

Definition fifo_under_file : Header := mkHeader "f/p" 0x1a4 TypeFifo "" 0 0.

Definition dir_d : Header := mkHeader "d/" 0x1c0 TypeDir "" 0 0.

Definition file_d_f : Header := mkHeader "d/f.txt" 0x1a4 TypeReg "" 0 0.

Definition hello : Content := mkContent (bytes "hello") None.

Definition escaping_symlink_in_new_dir : Header :=
  mkHeader "y/l" 0x1ff TypeSymlink "../../../etc/passwd" 0 0.

Definition pre_existing_f : Header := mkHeader "f" 0x1a4 TypeReg "" 0 0.

Definition bye : Content := mkContent (bytes "bye") None.

Definition dir_d_open : Header := mkHeader "d/" 0x1ed TypeDir "" 0 0.

Definition archive_a : Reader :=
  mkReader [(mkHeader "a/b.txt" 0x1a4 TypeReg "" 0 0, hello);
            (mkHeader "a/" 0x1ed TypeDir "" 0 0, no_content)] None.

Definition sibling_symlink : Header :=
  mkHeader "l" 0x1ff TypeSymlink "../outside/secret" 0 0.

Definition sibling_hardlink : Header :=
  mkHeader "l" 0x1ff TypeLink "../outside/secret" 0 0.

Definition escaping_symlink : Header :=
  mkHeader "l" 0x1ff TypeSymlink "../../etc/passwd" 0 0.

(** The text of the refusal of [escaping_symlink] under [/tmp/out]. *)
Definition refusal_text : string :=
  insecure_symlink_message quote_plain "/tmp/out/l" "../../etc/passwd".

Definition link_to_f : Header := mkHeader "h" 0x1a4 TypeLink "f" 0 0.

(** The entry of [/dev/null]: a character device, major 1 and minor 3, mode
    0666. *)
Definition dev_null : Header := mkHeader "null" 0x1b6 TypeChar "" 1 3.

(** A character device whose major does not fit twelve bits: major 4096 and
    minor 5, mode 0666. *)
Definition wide_major : Header := mkHeader "wide" 0x1b6 TypeChar "" 4096 5.

Definition symlink_named_f : Header := mkHeader "f" 0x1ff TypeSymlink "d" 0 0.

Definition public_file : Header := mkHeader "g" 0x1b6 TypeReg "" 0 0.

(** Two bytes, then the stream breaks. *)
Definition cut_short : Content :=
  mkContent (bytes "he") (Some (errorString "unexpected EOF")).

(** * Properties *)

(** ** Machine integers *)

Module IntFacts.
Import Int.

Lemma to_int_small z : in_int z -> to_int z = z.
Proof.
  unfold in_int, to_int. intros [Hlo Hhi].
  destruct (Z_lt_le_dec z 0) as [Hneg | Hpos].
  - replace (z mod 2 ^ 64) with (z + 2 ^ 64).
    + destruct (Z.ltb_spec (z + 2 ^ 64) (2 ^ 63)); lia.
    + apply Z.mod_unique with (q := -1); lia.
  - rewrite Z.mod_small by lia.
    destruct (Z.ltb_spec z (2 ^ 63)); lia.
Qed.

Lemma to_int_range z : in_int (to_int z).
Proof.
  unfold in_int, to_int.
  pose proof (Z.mod_pos_bound z (2 ^ 64) ltac:(lia)) as Hb.
  destruct (Z.ltb_spec (z mod 2 ^ 64) (2 ^ 63)); lia.
Qed.

Lemma to_uint64_testbit z i :
  Z.testbit (to_uint64 z) i = (i <? 64) && Z.testbit z i.
Proof. unfold to_uint64. apply Z.testbit_mod_pow2. lia. Qed.

(** The bit at position 63 of a value below [2^64] tells which half it is in. *)
Lemma top_bit_of_uint64 u :
  0 <= u < 2 ^ 64 -> Z.testbit u 63 = negb (u <? 2 ^ 63).
Proof.
  intros Hu. rewrite Z.testbit_eqb by lia.
  destruct (Z.ltb_spec u (2 ^ 63)) as [Hlt | Hge]; simpl.
  - rewrite Z.div_small by lia. reflexivity.
  - replace (u / 2 ^ 63) with 1; [reflexivity|].
    apply Z.div_unique with (r := u - 2 ^ 63); lia.
Qed.

(** Bits of a signed conversion: the low 63 bits are kept and bit 63 is the
    sign, repeated in every higher position. *)
Lemma to_int_testbit z i :
  0 <= i -> Z.testbit (to_int z) i = Z.testbit z (Z.min i 63).
Proof.
  intros Hi. unfold to_int.
  pose proof (Z.mod_pos_bound z (2 ^ 64) ltac:(lia)) as Hb.
  pose proof (top_bit_of_uint64 _ Hb) as Htop.
  rewrite Z.mod_pow2_bits_low in Htop by lia.
  set (u := z mod 2 ^ 64) in *.
  destruct (u <? 2 ^ 63) eqn:Hcmp; cbn [negb] in Htop.
  - apply Z.ltb_lt in Hcmp.
    destruct (Z_lt_le_dec i 63) as [Hlow | Hhigh].
    + rewrite Z.min_l by lia. unfold u. apply Z.mod_pow2_bits_low. lia.
    + rewrite Z.min_r, Htop by lia.
      destruct (Z.eq_dec u 0) as [-> | Hnz]; [apply Z.bits_0|].
      apply Z.bits_above_log2; [lia|].
      apply Z.log2_lt_pow2; [lia|].
      apply Z.lt_le_trans with (2 ^ 63); [lia|].
      apply Z.pow_le_mono_r; lia.
  - apply Z.ltb_ge in Hcmp.
    destruct (Z_lt_le_dec i 63) as [Hlow | Hhigh].
    + rewrite Z.min_l by lia.
      rewrite <- (Z.mod_pow2_bits_low (u - 2 ^ 64) 64 i) by lia.
      replace ((u - 2 ^ 64) mod 2 ^ 64) with u.
      * unfold u. apply Z.mod_pow2_bits_low. lia.
      * unfold u.
        replace (z mod 2 ^ 64 - 2 ^ 64) with (z mod 2 ^ 64 + (-1) * 2 ^ 64) by lia.
        rewrite Z.mod_add by lia. rewrite Z.mod_mod by lia. reflexivity.
    + rewrite Z.min_r, Htop by lia.
      apply Z.bits_above_log2_neg; [lia|].
      destruct (Z.eq_dec (Z.pred (- (u - 2 ^ 64))) 0) as [E | Hnz].
      * rewrite E. simpl. lia.
      * apply Z.log2_lt_pow2; [lia|].
        apply Z.lt_le_trans with (2 ^ 63); [lia|].
        apply Z.pow_le_mono_r; lia.
Qed.

End IntFacts.

(** ** makedev *)

Lemma testbit_small_const c k i :
  0 <= c < 2 ^ k -> 0 <= k <= i -> Z.testbit c i = false.
Proof.
  intros Hc Hk. rewrite <- (Z.mod_small c (2 ^ k)) by lia.
  apply Z.mod_pow2_bits_high. lia.
Qed.

Lemma makedev_to_int major minor :
  makedev major minor = Int.to_int (dev_encoding major minor).
Proof.
  apply Z.bits_inj'. intros i Hi.
  unfold makedev, dev_encoding, Int.shl_int, Int.shl_uint64.
  rewrite !Z.lor_spec, !IntFacts.to_int_testbit by lia.
  rewrite !Z.lor_spec.
  assert (Hj : 0 <= Z.min i 63 <= 63) by lia.
  set (j := Z.min i 63) in *.
  rewrite !IntFacts.to_uint64_testbit.
  rewrite !Z.shiftl_spec by lia.
  rewrite !IntFacts.to_uint64_testbit.
  replace (j <? 64) with true by (symmetry; apply Z.ltb_lt; lia).
  replace (j - 12 <? 64) with true by (symmetry; apply Z.ltb_lt; lia).
  replace (j - 32 <? 64) with true by (symmetry; apply Z.ltb_lt; lia).
  cbn [andb].
  replace (Z.testbit (Z.land minor 255) i)
    with (Z.testbit (Z.land minor 255) j); [reflexivity|].
  subst j. destruct (Z_lt_le_dec i 63) as [Hlow | Hhigh].
  - rewrite Z.min_l by lia. reflexivity.
  - rewrite Z.min_r by lia. rewrite !Z.land_spec.
    rewrite (testbit_small_const 255 8 63), (testbit_small_const 255 8 i) by lia.
    rewrite !andb_false_r. reflexivity.
Qed.

(** When the encoding fits the signed range, [makedev] returns it as it is. *)
Lemma makedev_exact major minor :
  Int.in_int (dev_encoding major minor) ->
  makedev major minor = dev_encoding major minor.
Proof.
  intros Hfit. rewrite makedev_to_int. apply IntFacts.to_int_small, Hfit.
Qed.

Lemma to_uint64_to_int z : Int.to_uint64 (Int.to_int z) = Int.to_uint64 z.
Proof.
  apply Z.bits_inj'. intros i Hi.
  rewrite !IntFacts.to_uint64_testbit.
  destruct (Z.ltb_spec i 64) as [Hlt | Hge]; [|reflexivity]. cbn [andb].
  rewrite IntFacts.to_int_testbit by lia.
  destruct (Z_lt_le_dec i 63).
  - rewrite Z.min_l by lia. reflexivity.
  - rewrite Z.min_r by lia. replace i with 63 by lia. reflexivity.
Qed.

(** For arguments within 32 bits the encoding is a 64-bit unsigned number. *)
Lemma dev_encoding_uint64 major minor :
  0 <= major < 2 ^ 32 -> 0 <= minor < 2 ^ 32 ->
  Int.to_uint64 (dev_encoding major minor) = dev_encoding major minor.
Proof.
  intros Hmajor Hminor. apply Z.bits_inj'. intros i Hi.
  rewrite IntFacts.to_uint64_testbit.
  destruct (Z.ltb_spec i 64) as [Hlt | Hge]; [reflexivity|]. cbn [andb].
  unfold dev_encoding.
  rewrite !Z.lor_spec, !Z.shiftl_spec, !Z.land_spec by lia.
  rewrite (testbit_small_const 255 8 i) by lia.
  rewrite (testbit_small_const 4095 12 (i - 8)) by lia.
  rewrite (testbit_small_const minor 32 (i - 12)) by lia.
  rewrite (testbit_small_const major 32 (i - 32)) by lia.
  rewrite !andb_false_r. reflexivity.
Qed.

(** C4.  For every pair of integers the device number [makedev] returns is
    the composite encoding
    [(minor & 0xff) | ((major & 0xfff) << 8) | ((minor & ~0xff) << 12) |
     ((major & ~0xfff) << 32)]: it is that number as a 64-bit [int], it agrees
    with it on all 64 bits of the kernel's [dev_t], for arguments within 32
    bits its unsigned reading is the encoding itself, and
    [makedev 1 3 = 0x103], [makedev 8 1 = 0x801]. *)
Theorem makedev_device_encoding :
  forall major minor : Z,
    makedev major minor = Int.to_int (dev_encoding major minor) /\
    Int.to_uint64 (makedev major minor) = Int.to_uint64 (dev_encoding major minor) /\
    (0 <= major < 2 ^ 32 -> 0 <= minor < 2 ^ 32 ->
     Int.to_uint64 (makedev major minor) = dev_encoding major minor) /\
    makedev 1 3 = 0x103 /\
    makedev 8 1 = 0x801.
Proof.
  intros major minor. split; [apply makedev_to_int|]. split; [|split].
  - rewrite makedev_to_int. apply to_uint64_to_int.
  - intros Hmajor Hminor.
    rewrite makedev_to_int, to_uint64_to_int.
    apply dev_encoding_uint64; assumption.
  - split; reflexivity.
Qed.

(** The disk [sda1], major 8 and minor 1. *)
Lemma makedev_device_encoding_witness :
  Int.to_uint64 (makedev 8 1) = dev_encoding 8 1.
Proof.
  apply (proj1 (proj2 (proj2 (makedev_device_encoding 8 1)))); lia.
Defined.

(** ** Facts about the file-system model *)

Lemma fresh_inode_unused (w : World) : inodes w !! fresh (dom (inodes w)) = None.
Proof. apply not_elem_of_dom, is_fresh. Qed.

Lemma node_at_add_node_same k n w :
  node_at (add_node k n w) k = Some n.
Proof.
  unfold node_at, add_node; simpl.
  rewrite lookup_insert_eq. apply lookup_insert_eq.
Qed.

(** Entering a new name changes no object that was there: another name shows
    what it showed before, or shows the new object where it showed nothing. *)
Lemma node_at_add_node k n w k' :
  names w !! k = None ->
  node_at (add_node k n w) k' = node_at w k' \/
  (node_at w k' = None /\ node_at (add_node k n w) k' = Some n).
Proof.
  intros Hfree. destruct (decide (k = k')) as [<- | Hne].
  - right. split; [|apply node_at_add_node_same].
    unfold node_at. rewrite Hfree. reflexivity.
  - unfold node_at, add_node; simpl. rewrite lookup_insert_ne by done.
    destruct (names w !! k') as [i|]; [|left; reflexivity].
    destruct (decide (fresh (dom (inodes w)) = i)) as [<- | Hi].
    + right. rewrite lookup_insert_eq. split; [apply fresh_inode_unused | done].
    + left. rewrite lookup_insert_ne by done. reflexivity.
Qed.

Lemma node_at_add_node_keeps k n w k' x :
  names w !! k = None ->
  node_at w k' = Some x -> node_at (add_node k n w) k' = Some x.
Proof.
  intros Hfree Hx. destruct (node_at_add_node k n w k' Hfree) as [-> | [Hnone _]].
  - exact Hx.
  - congruence.
Qed.

Lemma only_adds_dirs_refl mode w : only_adds_dirs mode w w.
Proof. repeat split. intros k. left. reflexivity. Qed.

Lemma only_adds_dirs_trans mode w1 w2 w3 :
  only_adds_dirs mode w1 w2 -> only_adds_dirs mode w2 w3 ->
  only_adds_dirs mode w1 w3.
Proof.
  intros (Hc1 & Hu1 & H1) (Hc2 & Hu2 & H2).
  split; [congruence|]. split; [congruence|].
  intros k. destruct (H2 k) as [E2 | [N2 S2]], (H1 k) as [E1 | [N1 S1]].
  - left. congruence.
  - right. split; congruence.
  - right. split; congruence.
  - congruence.
Qed.

Lemma only_adds_dirs_keeps mode w w' k n :
  only_adds_dirs mode w w' -> node_at w k = Some n -> node_at w' k = Some n.
Proof.
  intros (_ & _ & H) Hn. destruct (H k) as [E | [N _]]; congruence.
Qed.

Lemma key_same_cwd w w' path : cwd w' = cwd w -> key w' path = key w path.
Proof. unfold key. intros ->. reflexivity. Qed.

Lemma lookup_only_adds_dirs mode w w' path n :
  only_adds_dirs mode w w' -> lookup w path = Some n -> lookup w' path = Some n.
Proof.
  intros Hg. unfold lookup. destruct (String.eqb path ""); [done|].
  rewrite (key_same_cwd w w') by apply Hg.
  apply (only_adds_dirs_keeps _ _ _ _ _ Hg).
Qed.

Lemma refusal_None w path :
  refusal w path = None ->
  String.eqb path "" = false /\ names w !! key w path = None.
Proof.
  unfold refusal, creatable. destruct (String.eqb path ""); [done|].
  destruct (names w !! key w path); [done|]. auto.
Qed.

Lemma Mkdir_spec name perm w r w' :
  Mkdir name perm w = (r, w') ->
  only_adds_dirs (masked w (syscallMode perm) 0x3ff) w w' /\
  (r = Ok tt -> lookup w' name = Some (IDir (masked w (syscallMode perm) 0x3ff))).
Proof.
  unfold Mkdir. destruct (refusal w name) as [e|] eqn:Hr; intros [= <- <-].
  - split; [apply only_adds_dirs_refl | done].
  - apply refusal_None in Hr as [Hne Hfree]. split.
    + repeat split. intros k. apply node_at_add_node, Hfree.
    + intros _. unfold lookup. rewrite Hne.
      rewrite (key_same_cwd _ w) by reflexivity.
      apply node_at_add_node_same.
Qed.

Lemma Stat_world path w r w' : Stat path w = (r, w') -> w' = w.
Proof.
  unfold Stat. destruct (lookup w path) as [[]|]; intros [= _ <-]; reflexivity.
Qed.

Lemma Stat_Ok path w n w' : Stat path w = (Ok n, w') -> lookup w path = Some n.
Proof.
  unfold Stat. destruct (lookup w path) as [[]|]; intros [= <- _]; reflexivity.
Qed.

Lemma Lstat_Ok path w n w' : Lstat path w = (Ok n, w') -> lookup w path = Some n.
Proof.
  unfold Lstat. destruct (lookup w path); intros [= <- _]; reflexivity.
Qed.

Lemma IsDir_true n : IsDir n = true -> exists m, n = IDir m.
Proof. destruct n; try discriminate. eauto. Qed.

Lemma masked_same_umask w w' mode allowed :
  umask w' = umask w -> masked w' mode allowed = masked w mode allowed.
Proof. unfold masked. intros ->. reflexivity. Qed.

(** [MkdirAll] only adds directories, all of the requested mode less the
    umask, and when it succeeds the path is a directory. *)
Lemma MkdirAll_rec_spec fuel :
  forall path perm w r w',
    MkdirAll_rec fuel path perm w = Some (r, w') ->
    only_adds_dirs (masked w (syscallMode perm) 0x3ff) w w' /\
    (r = Ok tt -> exists m, lookup w' path = Some (IDir m)).
Proof.
  induction fuel as [|fuel IH]; intros path perm w r w'; simpl; [discriminate|].
  destruct (Stat path w) as [[dir|e0] ws] eqn:HS.
  - destruct (IsDir dir) eqn:Hdir; intros [= <- <-].
    + split; [apply only_adds_dirs_refl|]. intros _.
      apply IsDir_true in Hdir as [m ->]. exists m. eapply Stat_Ok, HS.
    + split; [apply only_adds_dirs_refl | discriminate].
  - set (j := scan_back_element path
                (skip_trailing_separators path (String.length path))).
    set (parent := if (1 <? j)%nat
                   then MkdirAll_rec fuel (substring 0 (j - 1) path) perm w
                   else Some (Ok tt, w)).
    assert (Hparent : forall rp w1, parent = Some (rp, w1) ->
              only_adds_dirs (masked w (syscallMode perm) 0x3ff) w w1).
    { intros rp w1. unfold parent. destruct (1 <? j)%nat.
      - intros H. apply IH in H. apply H.
      - intros [= _ <-]. apply only_adds_dirs_refl. }
    destruct parent as [[[[]|e1] w1]|]; [| |discriminate].
    + specialize (Hparent _ _ eq_refl).
      destruct (Mkdir path perm w1) as [[[]|e2] w2] eqn:HM.
      * intros [= <- <-]. apply Mkdir_spec in HM as [Hg Hdir].
        rewrite (masked_same_umask w w1) in Hg, Hdir by apply Hparent.
        split; [eapply only_adds_dirs_trans; eassumption|].
        intros _. eexists. apply Hdir. reflexivity.
      * apply Mkdir_spec in HM as [Hg _].
        rewrite (masked_same_umask w w1) in Hg by apply Hparent.
        assert (Hg' := only_adds_dirs_trans _ _ _ _ Hparent Hg).
        destruct (Lstat path w2) as [[dir|e3] w3] eqn:HL.
        -- destruct (IsDir dir) eqn:Hdir; intros [= <- <-].
           ++ split; [exact Hg'|]. intros _.
              apply IsDir_true in Hdir as [m ->]. exists m. eapply Lstat_Ok, HL.
           ++ split; [exact Hg' | discriminate].
        -- intros [= <- <-]. split; [exact Hg' | discriminate].
    + intros [= <- <-]. split; [eapply Hparent; reflexivity | discriminate].
Qed.

Lemma substring_length_le s :
  forall start len, (String.length (substring start len s) <= len)%nat.
Proof.
  induction s as [|c s IH]; intros start len.
  - destruct start, len; simpl; lia.
  - destruct start as [|start]; simpl.
    + destruct len as [|len]; simpl; [lia|]. specialize (IH 0%nat len). lia.
    + apply IH.
Qed.

Lemma skip_trailing_separators_le path i :
  (skip_trailing_separators path i <= i)%nat.
Proof.
  induction i as [|i IH]; simpl; [lia|]. destruct (sep_at path i); lia.
Qed.

Lemma scan_back_element_le path j : (scan_back_element path j <= j)%nat.
Proof.
  induction j as [|j IH]; simpl; [lia|]. destruct (sep_at path j); lia.
Qed.

(** The fuel [MkdirAll] starts with is enough. *)
Lemma MkdirAll_rec_total fuel :
  forall path perm w,
    (String.length path < fuel)%nat ->
    exists r, MkdirAll_rec fuel path perm w = Some r.
Proof.
  induction fuel as [|fuel IH]; intros path perm w Hlen; [lia|]. simpl.
  destruct (Stat path w) as [[dir|e0] ws].
  - destruct (IsDir dir); eauto.
  - set (j := scan_back_element path
                (skip_trailing_separators path (String.length path))).
    assert (Hj : (j <= String.length path)%nat).
    { unfold j.
      pose proof (scan_back_element_le path
                    (skip_trailing_separators path (String.length path))).
      pose proof (skip_trailing_separators_le path (String.length path)). lia. }
    assert (Hparent : exists rp,
              (if (1 <? j)%nat
               then MkdirAll_rec fuel (substring 0 (j - 1) path) perm w
               else Some (Ok tt, w)) = Some rp).
    { destruct (Nat.ltb_spec 1 j); [|eauto].
      apply IH. pose proof (substring_length_le path 0 (j - 1)). lia. }
    destruct Hparent as [[[[]|e1] w1] ->]; [|eauto].
    destruct (Mkdir path perm w1) as [[[]|e2] w2]; [eauto|].
    destruct (Lstat path w2) as [[dir|e3] w3]; [destruct (IsDir dir)|]; eauto.
Qed.

Lemma MkdirAll_fuel_enough path perm w :
  MkdirAll_rec (S (String.length path)) path perm w = Some (MkdirAll path perm w).
Proof.
  unfold MkdirAll.
  destruct (MkdirAll_rec_total (S (String.length path)) path perm w) as [r Hr];
    [lia|].
  rewrite Hr. reflexivity.
Qed.

Lemma MkdirAll_spec path perm w r w' :
  MkdirAll path perm w = (r, w') ->
  only_adds_dirs (masked w (syscallMode perm) 0x3ff) w w' /\
  (r = Ok tt -> exists m, lookup w' path = Some (IDir m)).
Proof.
  intros H. apply (MkdirAll_rec_spec (S (String.length path))).
  rewrite MkdirAll_fuel_enough, H. reflexivity.
Qed.

(** ** ExtractFile, one entry type at a time *)

Section Dispatch.

Variable Quote : string -> string.
Variables (tr : Content) (hdr : Header) (dir : string).

Let p := Join dir (Name hdr).

(** Every entry starts with the creation of the parent directory; an error
    there is the result. *)
Lemma ExtractFile_parent_fails w e w1 :
  MkdirAll (Dir p) DEFAULT_DIR_MODE w = (Err e, w1) ->
  ExtractFile Quote tr hdr dir w = (Err e, w1).
Proof. intros H. unfold ExtractFile, bind. fold p. rewrite H. reflexivity. Qed.

Lemma ExtractFile_symlink w w1 :
  Typeflag hdr = TypeSymlink ->
  MkdirAll (Dir p) DEFAULT_DIR_MODE w = (Ok tt, w1) ->
  ExtractFile Quote tr hdr dir w =
    if HasPrefix (Join (Dir p) (Linkname hdr)) dir
    then Symlink (Linkname hdr) p w1
    else (Err (insecureLinkError
                 (errorString (insecure_symlink_message Quote p (Linkname hdr)))),
          w1).
Proof.
  intros Htyp H. unfold ExtractFile, bind. fold p. rewrite H, Htyp. cbn.
  destruct (HasPrefix (Join (Dir p) (Linkname hdr)) dir); reflexivity.
Qed.

Lemma ExtractFile_link w w1 :
  Typeflag hdr = TypeLink ->
  MkdirAll (Dir p) DEFAULT_DIR_MODE w = (Ok tt, w1) ->
  ExtractFile Quote tr hdr dir w =
    if HasPrefix (Join dir (Linkname hdr)) dir
    then Link (Join dir (Linkname hdr)) p w1
    else (Err (insecureLinkError
                 (errorString (insecure_link_message Quote p (Linkname hdr)))),
          w1).
Proof.
  intros Htyp H. unfold ExtractFile, bind. fold p. rewrite H, Htyp. cbn.
  destruct (HasPrefix (Join dir (Linkname hdr)) dir); reflexivity.
Qed.

Lemma ExtractFile_unsupported w w1 :
  supported (Typeflag hdr) = false ->
  MkdirAll (Dir p) DEFAULT_DIR_MODE w = (Ok tt, w1) ->
  ExtractFile Quote tr hdr dir w =
    (Err (errorString (unsupported_type_message (Typeflag hdr))), w1).
Proof.
  unfold supported, is_regular. intros Htyp H.
  repeat (apply orb_false_elim in Htyp as [Htyp ?]).
  unfold ExtractFile, bind. fold p. rewrite H.
  repeat match goal with E : Ascii.eqb _ _ = false |- _ => rewrite E; clear E end.
  reflexivity.
Qed.

End Dispatch.

(** ** The mode bits that reach the kernel

    [syscallMode(hdr.FileInfo().Mode())] is the low twelve bits of the
    header's mode: the type bits that [FileInfo] adds are dropped again. *)

Lemma land_lor_outside a c k : Z.land c k = 0 -> Z.land (Z.lor a c) k = Z.land a k.
Proof. intros H. rewrite Z.land_lor_distr_l, H. apply Z.lor_0_r. Qed.

Lemma land_set_if_outside b c a k :
  Z.land c k = 0 -> Z.land (set_if b c a) k = Z.land a k.
Proof. intros H. unfold set_if. destruct b; [apply land_lor_outside, H | reflexivity]. Qed.

Lemma land_submask a k k' : Z.land k k' = k' -> Z.land (Z.land a k) k' = Z.land a k'.
Proof. intros H. rewrite <- Z.land_assoc, H. reflexivity. Qed.

Lemma syscallMode_mode_t_part i : syscallMode (Z.land i mode_t_part) = syscallMode i.
Proof.
  unfold syscallMode, has_bit.
  rewrite !land_submask by reflexivity. reflexivity.
Qed.

Lemma FileInfo_Mode_mode_t_part h :
  Z.land (FileInfo_Mode h) mode_t_part = Z.land (permission_part h) mode_t_part.
Proof.
  unfold FileInfo_Mode. cbv zeta.
  repeat match goal with
         | |- context [if ?b then _ else _] =>
             lazymatch b with
             | context [Typeflag] => destruct b
             end
         end;
    rewrite ?(land_lor_outside _ _ mode_t_part) by reflexivity;
    rewrite !land_set_if_outside by reflexivity;
    reflexivity.
Qed.

Lemma land_single_bit a k :
  0 <= k -> Z.land a (2 ^ k) = if Z.testbit a k then 2 ^ k else 0.
Proof.
  intros Hk. apply Z.bits_inj'. intros i Hi.
  rewrite Z.land_spec, Z.pow2_bits_eqb by lia.
  destruct (Z.eqb_spec k i) as [<- | Hne].
  - destruct (Z.testbit a k); [rewrite Z.pow2_bits_true by lia; reflexivity|].
    rewrite Z.bits_0. reflexivity.
  - rewrite andb_false_r.
    destruct (Z.testbit a k); [|rewrite Z.bits_0; reflexivity].
    rewrite Z.pow2_bits_false by lia. reflexivity.
Qed.

Lemma has_bit_lor a c k : has_bit (Z.lor a c) k = has_bit a k || has_bit c k.
Proof.
  unfold has_bit. rewrite Z.land_lor_distr_l.
  destruct (Z.eqb_spec (Z.land a k) 0) as [Ea | Ea],
           (Z.eqb_spec (Z.land c k) 0) as [Ec | Ec]; simpl.
  - rewrite Ea, Ec. reflexivity.
  - rewrite Ea, Z.lor_0_l. apply negb_true_iff, Z.eqb_neq, Ec.
  - apply negb_true_iff, Z.eqb_neq. intros H. apply Z.lor_eq_0_iff in H. tauto.
  - apply negb_true_iff, Z.eqb_neq. intros H. apply Z.lor_eq_0_iff in H. tauto.
Qed.

Lemma has_bit_land_outside a k k' :
  Z.land k k' = 0 -> has_bit (Z.land a k) k' = false.
Proof.
  intros H. unfold has_bit. rewrite <- Z.land_assoc, H, Z.land_0_r. reflexivity.
Qed.

Lemma has_bit_set_if b c a k :
  has_bit (set_if b c a) k = has_bit a k || (b && has_bit c k).
Proof.
  unfold set_if. destruct b; [apply has_bit_lor|].
  rewrite andb_false_l, orb_false_r. reflexivity.
Qed.

Lemma mod_2_32_low a k :
  Z.land (Z.ones 32) k = k -> Z.land (a mod 2 ^ 32) k = Z.land a k.
Proof.
  intros H. rewrite <- Z.land_ones by lia. apply land_submask, H.
Qed.

Lemma syscallMode_permission_part h :
  syscallMode (permission_part h) = Z.land (Mode h) 0xfff.
Proof.
  unfold syscallMode, permission_part.
  rewrite !has_bit_set_if, !land_set_if_outside by reflexivity.
  rewrite !has_bit_land_outside by reflexivity.
  rewrite land_submask, mod_2_32_low by reflexivity.
  change (has_bit ModeSetuid ModeSetuid) with true.
  change (has_bit ModeSetgid ModeSetuid) with false.
  change (has_bit ModeSticky ModeSetuid) with false.
  change (has_bit ModeSetuid ModeSetgid) with false.
  change (has_bit ModeSetgid ModeSetgid) with true.
  change (has_bit ModeSticky ModeSetgid) with false.
  change (has_bit ModeSetuid ModeSticky) with false.
  change (has_bit ModeSetgid ModeSticky) with false.
  change (has_bit ModeSticky ModeSticky) with true.
  rewrite !andb_false_r, !andb_true_r, !orb_false_r, !orb_false_l.
  replace (Z.land (Mode h) 0xfff)
    with (Z.lor (Z.lor (Z.lor (Z.land (Mode h) ModePerm) (Z.land (Mode h) c_ISUID))
                       (Z.land (Mode h) c_ISGID))
                (Z.land (Mode h) c_ISVTX))
    by (rewrite <- !Z.land_lor_distr_r; reflexivity).
  change c_ISUID with (2 ^ 11). change c_ISGID with (2 ^ 10).
  change c_ISVTX with (2 ^ 9).
  rewrite !land_single_bit by lia.
  destruct (Z.testbit (Mode h) 11), (Z.testbit (Mode h) 10),
           (Z.testbit (Mode h) 9); cbn [negb]; 
    rewrite ?Z.lor_0_r; reflexivity.
Qed.

(** The mode the kernel is given for an entry. *)
Lemma syscallMode_FileInfo_Mode h :
  syscallMode (FileInfo_Mode h) = Z.land (Mode h) 0xfff.
Proof.
  rewrite <- syscallMode_mode_t_part, FileInfo_Mode_mode_t_part.
  rewrite syscallMode_mode_t_part. apply syscallMode_permission_part.
Qed.

(** ** Links *)

Lemma Symlink_Ok oldname newname w w' :
  Symlink oldname newname w = (Ok tt, w') ->
  readlink w' newname = Some oldname.
Proof.
  unfold Symlink. destruct (String.eqb oldname ""); [discriminate|].
  destruct (refusal w newname) as [e|] eqn:Hr; intros [= <-].
  apply refusal_None in Hr as [Hne Hfree].
  unfold readlink, lookup. rewrite Hne.
  rewrite (key_same_cwd _ w) by reflexivity.
  rewrite node_at_add_node_same. reflexivity.
Qed.

(** C3.  For a symbolic-link entry the containment check is made on
    [Join (Dir p) linkname], the target resolved from the directory of the
    link itself: when [ExtractFile] succeeds that path has the destination
    root as a textual prefix and the link created at [p] holds the raw
    [Linkname] of the entry; when the prefix test fails the entry is refused
    (with the insecure-symlink error once the parent directory is there) and
    nothing is done past the parent directory.  For a hard-link entry the
    check is made on [Join dir linkname] instead, the target resolved from the
    destination root. *)
Theorem symlink_checked_from_its_directory :
  (forall Quote tr hdr dir w r w',
      Typeflag hdr = TypeSymlink ->
      ExtractFile Quote tr hdr dir w = (r, w') ->
      let p := Join dir (Name hdr) in
      let dest := Join (Dir p) (Linkname hdr) in
      (r = Ok tt ->
       HasPrefix dest dir = true /\ readlink w' p = Some (Linkname hdr)) /\
      (HasPrefix dest dir = false ->
       r <> Ok tt /\
       forall w1, MkdirAll (Dir p) DEFAULT_DIR_MODE w = (Ok tt, w1) ->
         w' = w1 /\
         r = Err (insecureLinkError
                    (errorString
                       (insecure_symlink_message Quote p (Linkname hdr)))))) /\
  (forall Quote tr hdr dir w w',
      Typeflag hdr = TypeLink ->
      ExtractFile Quote tr hdr dir w = (Ok tt, w') ->
      HasPrefix (Join dir (Linkname hdr)) dir = true).
Proof.
  split.
  - intros Quote tr hdr dir w r w' Htyp Hrun p dest.
    destruct (MkdirAll (Dir p) DEFAULT_DIR_MODE w) as [[[]|e] w1] eqn:Hparent.
    + rewrite (ExtractFile_symlink Quote tr hdr dir w w1 Htyp Hparent) in Hrun.
      fold p dest in Hrun. destruct (HasPrefix dest dir) eqn:Hprefix.
      * split; [|discriminate]. intros ->. split; [reflexivity|].
        eapply Symlink_Ok, Hrun.
      * injection Hrun as <- <-. split; [discriminate|]. intros _.
        split; [discriminate|]. intros w2 [= <-]. split; reflexivity.
    + rewrite (ExtractFile_parent_fails Quote tr hdr dir w e w1 Hparent) in Hrun.
      injection Hrun as <- <-. split; [discriminate|]. intros _.
      split; [discriminate|]. intros w2. discriminate.
  - intros Quote tr hdr dir w w' Htyp Hrun.
    destruct (MkdirAll (Dir (Join dir (Name hdr))) DEFAULT_DIR_MODE w)
      as [[[]|e] w1] eqn:Hparent.
    + rewrite (ExtractFile_link Quote tr hdr dir w w1 Htyp Hparent) in Hrun.
      destruct (HasPrefix (Join dir (Linkname hdr)) dir); [reflexivity|].
      discriminate.
    + rewrite (ExtractFile_parent_fails Quote tr hdr dir w e w1 Hparent) in Hrun.
      discriminate.
Qed.

(** The symbolic link [sub/l -> ../f] is accepted under [/tmp/out]: from the
    directory of the link the target is [/tmp/out/f]. *)
Lemma symlink_checked_witness :
  HasPrefix (Join (Dir (Join "/tmp/out" "sub/l")) "../f") "/tmp/out" = true /\
  readlink (snd (ExtractFile quote_plain no_content sub_symlink "/tmp/out" empty_out))
           (Join "/tmp/out" "sub/l") = Some "../f".
Proof.
  refine (proj1 (proj1 symlink_checked_from_its_directory
                   quote_plain no_content sub_symlink "/tmp/out" empty_out
                   (Ok tt) _ eq_refl _) eq_refl).
  vm_compute. reflexivity.
Defined.

(** The hard link of the same name and target is refused: from the
    destination root the target is [/tmp/f]. *)
Example hardlink_same_target_refused :
  fst (ExtractFile quote_plain no_content sub_hardlink "/tmp/out" empty_out) =
  Err (insecureLinkError
         (errorString
            (insecure_link_message quote_plain "/tmp/out/sub/l" "../f"))).
Proof. vm_compute. reflexivity. Qed.

(** ** What the calls on one entry leave alone

    No call the extractor makes on a single entry changes the working
    directory or the umask, and none removes a directory or turns it into
    something else. *)

Lemma undisturbed_refl w : undisturbed w w.
Proof. repeat split. eauto. Qed.

Lemma undisturbed_trans w1 w2 w3 :
  undisturbed w1 w2 -> undisturbed w2 w3 -> undisturbed w1 w3.
Proof.
  intros (Hc1 & Hu1 & H1) (Hc2 & Hu2 & H2).
  split; [congruence|]. split; [congruence|].
  intros k m Hk. destruct (H1 k m Hk) as [m' Hk']. eauto.
Qed.

Lemma undisturbed_update_inode w i n old :
  inodes w !! i = Some old -> (IsDir old = true -> IsDir n = true) ->
  undisturbed w (with_inodes (<[i := n]>) w).
Proof.
  intros Hold Hdir. repeat split. intros k m. unfold node_at; simpl.
  destruct (names w !! k) as [j|]; [|discriminate].
  destruct (decide (i = j)) as [<- | Hne].
  - rewrite lookup_insert_eq, Hold. intros [= ->].
    destruct (IsDir_true n (Hdir eq_refl)) as [m' ->]. eauto.
  - rewrite lookup_insert_ne by done. eauto.
Qed.

Lemma undisturbed_add_node w k n :
  names w !! k = None -> undisturbed w (add_node k n w).
Proof.
  intros Hfree. repeat split. intros k' m Hk'. exists m.
  apply node_at_add_node_keeps; assumption.
Qed.

Lemma undisturbed_add_name w k i :
  names w !! k = None -> undisturbed w (with_names (<[k := i]>) w).
Proof.
  intros Hfree. repeat split. intros k' m. unfold node_at; simpl.
  destruct (decide (k = k')) as [<- | Hne].
  - rewrite Hfree. discriminate.
  - rewrite lookup_insert_ne by done. eauto.
Qed.

Lemma undisturbed_only_adds_dirs mode w w' :
  only_adds_dirs mode w w' -> undisturbed w w'.
Proof.
  intros Hg. destruct Hg as (Hc & Hu & H). repeat split; [exact Hc | exact Hu |].
  intros k m Hk. exists m. destruct (H k) as [E | [N _]]; congruence.
Qed.

Lemma lookup_undisturbed_dir w w' path m :
  undisturbed w w' -> lookup w path = Some (IDir m) ->
  exists m', lookup w' path = Some (IDir m').
Proof.
  intros (Hc & _ & H). unfold lookup. destruct (String.eqb path ""); [discriminate|].
  rewrite (key_same_cwd w w' path Hc). apply H.
Qed.

Lemma quiet_ret {A} (a : A) : quiet (ret a).
Proof. intros w. apply undisturbed_refl. Qed.

Lemma quiet_fail {A} (e : error) : quiet (@fail A e).
Proof. intros w. apply undisturbed_refl. Qed.

Lemma quiet_bind {A B} (m : M A) (k : A -> M B) :
  quiet m -> (forall a, quiet (k a)) -> quiet (bind m k).
Proof.
  intros Hm Hk w. unfold bind. specialize (Hm w).
  destruct (m w) as [[a|e] w1]; simpl in *; [|exact Hm].
  eapply undisturbed_trans; [exact Hm | apply Hk].
Qed.

(** A call followed by the two-way [if err != nil] of the Go source. *)
Lemma quiet_handled {A B} (m : M A) (on_err : error -> M B) (on_ok : A -> M B) :
  quiet m -> (forall e, quiet (on_err e)) -> (forall a, quiet (on_ok a)) ->
  quiet (fun w => match m w with
                  | (Err err, w') => on_err err w'
                  | (Ok a, w') => on_ok a w'
                  end).
Proof.
  intros Hm He Ha w. specialize (Hm w).
  destruct (m w) as [[a|e] w1]; simpl in *;
    (eapply undisturbed_trans; [exact Hm|]); [apply Ha | apply He].
Qed.

Lemma quiet_MkdirAll path perm : quiet (MkdirAll path perm).
Proof.
  intros w. destruct (MkdirAll path perm w) as [r w'] eqn:H.
  apply MkdirAll_spec in H as [Hg _].
  eapply undisturbed_only_adds_dirs, Hg.
Qed.

Lemma quiet_OpenFile name flag perm : quiet (OpenFile name flag perm).
Proof.
  intros w. unfold OpenFile.
  destruct (String.eqb name ""); [apply undisturbed_refl|].
  destruct (names w !! key w name) as [i|] eqn:Hname.
  - destruct (inodes w !! i) as [[m|m old|t|m d]|] eqn:Hino; simpl;
      try apply undisturbed_refl.
    + destruct (wants_write flag || has_bit flag O_CREATE);
        apply undisturbed_refl.
    + destruct (has_bit flag O_TRUNC && wants_write flag);
        [|apply undisturbed_refl].
      eapply undisturbed_update_inode; [exact Hino | discriminate].
  - destruct (has_bit flag O_CREATE); [|apply undisturbed_refl].
    destruct (creatable w (key w name)); [apply undisturbed_refl|].
    apply undisturbed_add_node, Hname.
Qed.

Lemma quiet_Copy f tr : quiet (Copy f tr).
Proof.
  intros w. unfold Copy.
  destruct (inodes w !! file_ino f) as [[m|m old|t|m d]|] eqn:Hino;
    try apply undisturbed_refl.
  destruct (read_err tr); simpl;
    (eapply undisturbed_update_inode; [exact Hino | discriminate]).
Qed.

Lemma quiet_Chmod f mode : quiet (Chmod f mode).
Proof.
  intros w. unfold Chmod.
  destruct (inodes w !! file_ino f) as [[m|m old|t|m d]|] eqn:Hino; simpl;
    try apply undisturbed_refl;
    (eapply undisturbed_update_inode; [exact Hino|]);
    first [discriminate | reflexivity].
Qed.

Lemma quiet_Link oldname newname : quiet (Link oldname newname).
Proof.
  intros w. unfold Link.
  destruct (String.eqb oldname ""); [apply undisturbed_refl|].
  destruct (names w !! key w oldname) as [i|]; [|apply undisturbed_refl].
  destruct (inodes w !! i) as [[m|m old|t|m d]|]; try apply undisturbed_refl;
    (destruct (refusal w newname) eqn:Hr; [apply undisturbed_refl|]);
    apply undisturbed_add_name; apply refusal_None in Hr; apply Hr.
Qed.

Lemma quiet_Symlink oldname newname : quiet (Symlink oldname newname).
Proof.
  intros w. unfold Symlink.
  destruct (String.eqb oldname ""); [apply undisturbed_refl|].
  destruct (refusal w newname) eqn:Hr; [apply undisturbed_refl|].
  apply undisturbed_add_node. apply refusal_None in Hr. apply Hr.
Qed.

Lemma quiet_Mknod path mode dev : quiet (Mknod path mode dev).
Proof.
  intros w. unfold Mknod.
  destruct (negb _); [apply undisturbed_refl|].
  destruct (refusal w path) eqn:Hr; [apply undisturbed_refl|].
  apply undisturbed_add_node. apply refusal_None in Hr. apply Hr.
Qed.

Lemma quiet_Close f : quiet (Close f).
Proof. apply quiet_ret. Qed.

(** The cases of the [switch] of [ExtractFile]. *)
Ltac quiet_dispatch :=
  repeat match goal with
         | |- quiet (if ?b then _ else _) => destruct b
         end;
  first
    [ apply quiet_fail
    | apply quiet_Link
    | apply quiet_Symlink
    | apply quiet_Mknod
    | apply quiet_bind; [apply quiet_MkdirAll|]; intros _;
      apply quiet_bind; [apply quiet_OpenFile|]; intros ?;
      apply quiet_handled;
      [ first [apply quiet_Copy | apply quiet_Chmod]
      | intros ?; apply quiet_bind; [apply quiet_Close | intros; apply quiet_fail]
      | intros; apply quiet_Close ] ].

Lemma quiet_ExtractFile Quote tr hdr dir : quiet (ExtractFile Quote tr hdr dir).
Proof.
  unfold ExtractFile.
  apply quiet_bind; [apply quiet_MkdirAll|]. intros _. quiet_dispatch.
Qed.

(** Once the parent directory is there, the rest of [ExtractFile] runs from
    the world its creation left. *)
Lemma ExtractFile_after_parent Quote tr hdr dir w w1 r w' :
  MkdirAll (Dir (Join dir (Name hdr))) DEFAULT_DIR_MODE w = (Ok tt, w1) ->
  ExtractFile Quote tr hdr dir w = (r, w') ->
  undisturbed w1 w'.
Proof.
  intros Hparent Hrun. unfold ExtractFile in Hrun. unfold bind at 1 in Hrun.
  rewrite Hparent in Hrun.
  match type of Hrun with
  | ?rest w1 = _ => assert (Hrest : quiet rest) by quiet_dispatch
  end.
  specialize (Hrest w1). rewrite Hrun in Hrest. exact Hrest.
Qed.

Lemma quiet_extract_entries Quote es ending dir :
  quiet (extract_entries Quote es ending dir).
Proof.
  induction es as [|[hdr tr] rest IH]; simpl.
  - destruct ending; [apply quiet_fail | apply quiet_ret].
  - intros w. pose proof (quiet_ExtractFile Quote tr hdr dir w) as H.
    destruct (ExtractFile Quote tr hdr dir w) as [[[]|e] w1]; simpl in *.
    + eapply undisturbed_trans; [exact H | apply IH].
    + exact H.
Qed.

(** ** The file-creation mask *)

(** C8.  For every call of [ExtractTar] from a process whose file-creation
    mask is a mask (nine permission bits), the mask after the call is the mask
    before it, whatever the call returns. *)
Theorem ExtractTar_restores_umask :
  forall Quote tr dir w r w',
    0 <= umask w < 2 ^ 9 ->
    ExtractTar Quote tr dir w = (r, w') ->
    umask w' = umask w.
Proof.
  intros Quote tr dir w r w' Hmask. unfold ExtractTar, Umask.
  destruct (extract_entries Quote (entries tr) (ending tr) dir
              (with_umask (Z.land 0 511) w)) as [r1 w1].
  intros [= _ <-]. simpl.
  change 511 with (Z.ones 9). rewrite Z.land_ones by lia.
  apply Z.mod_small. exact Hmask.
Qed.

(** A run of [ExtractTar] that fails, from a process with umask 022. *)
Lemma ExtractTar_restores_umask_witness :
  umask (snd (ExtractTar quote_plain (mkReader [(fifo_in_new_dir, no_content)] None)
                "/tmp/out" empty_out)) = 0x12.
Proof.
  apply (ExtractTar_restores_umask quote_plain
           (mkReader [(fifo_in_new_dir, no_content)] None) "/tmp/out" empty_out
           (fst (ExtractTar quote_plain
                   (mkReader [(fifo_in_new_dir, no_content)] None)
                   "/tmp/out" empty_out))).
  - simpl. lia.
  - apply surjective_pairing.
Defined.

(** ** Entries of an unsupported type *)

(** The recursion of [extract_entries] is the loop of the source: one
    [tr.Next()], then the three cases of the [switch]. *)
Lemma extract_entries_Next Quote tr dir w :
  extract_entries Quote (entries tr) (ending tr) dir w =
  match Next tr with
  | (NextEOF, _) => (Ok tt, w)
  | (NextHeader hdr content, tr') =>
      match ExtractFile Quote content hdr dir w with
      | (Err err, w') => (Err (wrap_extracting err), w')
      | (Ok _, w') => extract_entries Quote (entries tr') (ending tr') dir w'
      end
  | (NextError err, _) => (Err (wrap_extracting err), w)
  end.
Proof. destruct tr as [[|[hdr content] rest] [err|]]; reflexivity. Qed.

Lemma extract_entries_app Quote pre post ending dir w :
  extract_entries Quote (pre ++ post) ending dir w =
  match extract_entries Quote pre None dir w with
  | (Ok _, w1) => extract_entries Quote post ending dir w1
  | (Err e, w1) => (Err e, w1)
  end.
Proof.
  revert w. induction pre as [|[hdr tr] pre IH]; intros w; simpl; [reflexivity|].
  destruct (ExtractFile Quote tr hdr dir w) as [[[]|e] w1]; [apply IH | reflexivity].
Qed.

(** What an entry of an unsupported type does: the parent directory, then
    the refusal. *)
Lemma ExtractFile_unsupported_run Quote tr hdr dir w r w' :
  supported (Typeflag hdr) = false ->
  ExtractFile Quote tr hdr dir w = (r, w') ->
  r <> Ok tt /\
  exists r0, MkdirAll (Dir (Join dir (Name hdr))) DEFAULT_DIR_MODE w = (r0, w').
Proof.
  intros Htyp Hrun.
  destruct (MkdirAll (Dir (Join dir (Name hdr))) DEFAULT_DIR_MODE w)
    as [[[]|e] w1] eqn:Hparent.
  - rewrite (ExtractFile_unsupported Quote tr hdr dir w w1 Htyp Hparent) in Hrun.
    injection Hrun as <- <-. split; [discriminate | eauto].
  - rewrite (ExtractFile_parent_fails Quote tr hdr dir w e w1 Hparent) in Hrun.
    injection Hrun as <- <-. split; [discriminate | eauto].
Qed.

Lemma lookup_with_umask m w path : lookup (with_umask m w) path = lookup w path.
Proof. reflexivity. Qed.

(** C7 (as amended).  An entry whose type flag has no case in [ExtractFile]
    is never extracted: [ExtractFile] fails, with the unsupported-type error
    that names the decimal type code whenever the parent directory of the
    target could be created, and with the error of that creation otherwise.
    In [ExtractTar] such an entry ends the walk with an error, and every
    object that the entries before it left on disk is still there. *)
Theorem unsupported_type_refused :
  (forall Quote tr hdr dir w r w',
      supported (Typeflag hdr) = false ->
      ExtractFile Quote tr hdr dir w = (r, w') ->
      let p := Join dir (Name hdr) in
      r <> Ok tt /\
      (forall w1, MkdirAll (Dir p) DEFAULT_DIR_MODE w = (Ok tt, w1) ->
         r = Err (errorString (unsupported_type_message (Typeflag hdr))) /\
         w' = w1) /\
      (forall e w1, MkdirAll (Dir p) DEFAULT_DIR_MODE w = (Err e, w1) ->
         r = Err e /\ w' = w1)) /\
  (forall Quote pre hdr tr rest ending dir w wp,
      supported (Typeflag hdr) = false ->
      ExtractTar Quote (mkReader pre None) dir w = (Ok tt, wp) ->
      exists cause w',
        ExtractTar Quote (mkReader (pre ++ (hdr, tr) :: rest) ending) dir w =
          (Err (wrap_extracting cause), w') /\
        forall path n, lookup wp path = Some n -> lookup w' path = Some n).
Proof.
  split.
  - intros Quote tr hdr dir w r w' Htyp Hrun p.
    split; [eapply ExtractFile_unsupported_run; eassumption|]. split.
    + intros w1 Hparent.
      rewrite (ExtractFile_unsupported Quote tr hdr dir w w1 Htyp Hparent) in Hrun.
      injection Hrun as <- <-. split; reflexivity.
    + intros e w1 Hparent.
      rewrite (ExtractFile_parent_fails Quote tr hdr dir w e w1 Hparent) in Hrun.
      injection Hrun as <- <-. split; reflexivity.
  - intros Quote pre hdr tr rest ending dir w wp Htyp.
    unfold ExtractTar, Umask. cbn [entries Tar.ending].
    rewrite extract_entries_app.
    destruct (extract_entries Quote pre None dir (with_umask (Z.land 0 511) w))
      as [[[]|e0] w1]; [|discriminate].
    intros [= <-]. cbn [extract_entries].
    destruct (ExtractFile Quote tr hdr dir w1) as [[[]|e] w2] eqn:Hrun.
    + apply ExtractFile_unsupported_run in Hrun as [Habs _]; [|exact Htyp].
      contradiction Habs. reflexivity.
    + apply ExtractFile_unsupported_run in Hrun as [_ [r0 Hparent]]; [|exact Htyp].
      apply MkdirAll_spec in Hparent as [Hgrow _].
      eexists _, _. split; [reflexivity|].
      intros path n. rewrite !lookup_with_umask.
      eapply lookup_only_adds_dirs, Hgrow.
Qed.

(** Where the parent of the target cannot be created the error is that of
    the creation, not the unsupported-type error: under [/tmp/out/f], a
    regular file, no directory can be made. *)
Lemma unsupported_type_counterexample :
  supported (Typeflag fifo_under_file) = false /\
  fst (ExtractFile quote_plain no_content fifo_under_file "/tmp/out" used_out) =
    Err (PathError "mkdir" "/tmp/out/f" ENOTDIR) /\
  fst (ExtractFile quote_plain no_content fifo_under_file "/tmp/out" used_out) <>
    Err (errorString (unsupported_type_message (Typeflag fifo_under_file))).
Proof.
  split; [reflexivity|]. split; [vm_compute; reflexivity|].
  vm_compute. discriminate.
Qed.

(** The archive [d/], [d/f.txt] extracts; with a FIFO entry after the two the
    walk fails and both are still there. *)
Lemma unsupported_type_refused_witness :
  exists cause w',
    ExtractTar quote_plain
      (mkReader ([(dir_d, no_content); (file_d_f, hello)] ++
                 (fifo_in_new_dir, no_content) :: []) None)
      "/tmp/out" empty_out = (Err (wrap_extracting cause), w') /\
    forall path n,
      lookup (snd (ExtractTar quote_plain
                     (mkReader [(dir_d, no_content); (file_d_f, hello)] None)
                     "/tmp/out" empty_out)) path = Some n ->
      lookup w' path = Some n.
Proof.
  apply (proj2 unsupported_type_refused quote_plain
           [(dir_d, no_content); (file_d_f, hello)] fifo_in_new_dir no_content
           [] None "/tmp/out" empty_out).
  - reflexivity.
  - vm_compute. reflexivity.
Defined.

(** ** Parent directories come before the dispatch *)

Lemma refused_by_dispatch_run Quote tr hdr dir w w1 :
  refused_by_dispatch hdr dir = true ->
  MkdirAll (Dir (Join dir (Name hdr))) DEFAULT_DIR_MODE w = (Ok tt, w1) ->
  exists e, ExtractFile Quote tr hdr dir w = (Err e, w1).
Proof.
  unfold refused_by_dispatch. intros Href Hparent.
  apply orb_true_iff in Href as [Href | Hsym];
    [apply orb_true_iff in Href as [Hunsup | Hlink]|].
  - apply negb_true_iff in Hunsup. eexists.
    apply ExtractFile_unsupported; assumption.
  - apply andb_true_iff in Hlink as [Htyp Hprefix].
    apply Ascii.eqb_eq in Htyp. apply negb_true_iff in Hprefix.
    rewrite (ExtractFile_link Quote tr hdr dir w w1 Htyp Hparent), Hprefix.
    eauto.
  - apply andb_true_iff in Hsym as [Htyp Hprefix].
    apply Ascii.eqb_eq in Htyp. apply negb_true_iff in Hprefix.
    rewrite (ExtractFile_symlink Quote tr hdr dir w w1 Htyp Hparent), Hprefix.
    eauto.
Qed.

(** C10.  [ExtractFile] creates the missing parent directories of the target
    path, with [DEFAULT_DIR_MODE] (less the umask), before it looks at the
    entry type.  An error of that creation is the result of the call.  Once
    the creation has succeeded it has only added directories of that mode,
    and whatever the entry is and however the call ends the parent is a
    directory afterwards.  An entry that the dispatch then refuses
    (unsupported type, insecure link) fails in the very world the creation
    left.  So a failing entry can leave new directories behind: the FIFO
    entry [x/p] and the escaping symlink [y/l] both fail and leave [/tmp/out/x]
    and [/tmp/out/y], which did not exist, as directories of mode 0755. *)
Theorem parent_directories_come_first :
  (forall Quote tr hdr dir w e w1,
      MkdirAll (Dir (Join dir (Name hdr))) DEFAULT_DIR_MODE w = (Err e, w1) ->
      ExtractFile Quote tr hdr dir w = (Err e, w1)) /\
  (forall Quote tr hdr dir w w1 r w',
      MkdirAll (Dir (Join dir (Name hdr))) DEFAULT_DIR_MODE w = (Ok tt, w1) ->
      ExtractFile Quote tr hdr dir w = (r, w') ->
      only_adds_dirs (masked w (syscallMode DEFAULT_DIR_MODE) 0x3ff) w w1 /\
      exists m, lookup w' (Dir (Join dir (Name hdr))) = Some (IDir m)) /\
  (forall Quote tr hdr dir w w1,
      refused_by_dispatch hdr dir = true ->
      MkdirAll (Dir (Join dir (Name hdr))) DEFAULT_DIR_MODE w = (Ok tt, w1) ->
      exists e, ExtractFile Quote tr hdr dir w = (Err e, w1)) /\
  (let run := ExtractFile quote_plain no_content fifo_in_new_dir "/tmp/out"
                          empty_out in
   fst run = Err (errorString "unsupported type: 54") /\
   lookup empty_out "/tmp/out/x" = None /\
   lookup (snd run) "/tmp/out/x" = Some (IDir DEFAULT_DIR_MODE)) /\
  (let run := ExtractFile quote_plain no_content escaping_symlink_in_new_dir
                          "/tmp/out" empty_out in
   fst run = Err (insecureLinkError
                    (errorString
                       (insecure_symlink_message quote_plain "/tmp/out/y/l"
                          "../../../etc/passwd"))) /\
   lookup empty_out "/tmp/out/y" = None /\
   lookup (snd run) "/tmp/out/y" = Some (IDir DEFAULT_DIR_MODE)).
Proof.
  split; [intros; apply ExtractFile_parent_fails; assumption|]. split.
  - intros Quote tr hdr dir w w1 r w' Hparent Hrun.
    pose proof (ExtractFile_after_parent _ _ _ _ _ _ _ _ Hparent Hrun) as Hrest.
    apply MkdirAll_spec in Hparent as [Hgrow Hdir].
    split; [exact Hgrow|].
    destruct (Hdir eq_refl) as [m Hm].
    eapply lookup_undisturbed_dir; eassumption.
  - split; [intros; eapply refused_by_dispatch_run; eassumption|].
    split; vm_compute; repeat split; reflexivity.
Qed.

(** The refused FIFO entry above, through the general statements. *)
Lemma parent_directories_come_first_witness :
  (exists e, ExtractFile quote_plain no_content fifo_in_new_dir "/tmp/out"
               empty_out =
             (Err e, snd (MkdirAll "/tmp/out/x" DEFAULT_DIR_MODE empty_out))) /\
  only_adds_dirs (masked empty_out (syscallMode DEFAULT_DIR_MODE) 0x3ff)
    empty_out (snd (MkdirAll "/tmp/out/x" DEFAULT_DIR_MODE empty_out)) /\
  exists m,
    lookup (snd (ExtractFile quote_plain no_content fifo_in_new_dir "/tmp/out"
                   empty_out))
           (Dir (Join "/tmp/out" (Name fifo_in_new_dir))) = Some (IDir m).
Proof.
  split.
  - apply (proj1 (proj2 (proj2 parent_directories_come_first)) quote_plain
             no_content fifo_in_new_dir "/tmp/out" empty_out).
    + reflexivity.
    + vm_compute. reflexivity.
  - apply (proj1 (proj2 parent_directories_come_first) quote_plain no_content
             fifo_in_new_dir "/tmp/out" empty_out _
             (fst (ExtractFile quote_plain no_content fifo_in_new_dir
                     "/tmp/out" empty_out))).
    + vm_compute. reflexivity.
    + apply surjective_pairing.
Defined.

(** ** Regular files *)

Lemma OpenFile_create_rdwr name perm w f w' :
  OpenFile name (Z.lor O_CREATE O_RDWR) perm w = (Ok f, w') ->
  String.eqb name "" = false /\
  ((exists m old,
       names w !! key w name = Some (file_ino f) /\
       inodes w !! file_ino f = Some (IReg m old) /\ w' = w) \/
   (names w !! key w name = None /\
    file_ino f = fresh (dom (inodes w)) /\
    w' = add_node (key w name) (IReg (masked w (syscallMode perm) 0xfff) []) w)).
Proof.
  unfold OpenFile. destruct (String.eqb name ""); [discriminate|].
  split; [reflexivity|].
  change (has_bit (Z.lor O_CREATE O_RDWR) O_TRUNC) with false in H.
  change (has_bit (Z.lor O_CREATE O_RDWR) O_CREATE) with true in H.
  change (wants_write (Z.lor O_CREATE O_RDWR)) with true in H.
  cbn [andb orb] in H.
  destruct (names w !! key w name) as [i|] eqn:Hname.
  - destruct (inodes w !! i) as [[m|m old|t|m d]|] eqn:Hino; try discriminate.
    injection H as <- <-. left. eauto.
  - destruct (creatable w (key w name)); [discriminate|].
    injection H as <- <-. right. auto.
Qed.

Lemma Copy_Ok f tr w w' :
  Copy f tr w = (Ok tt, w') ->
  read_err tr = None /\
  exists m old,
    inodes w !! file_ino f = Some (IReg m old) /\
    w' = with_inodes
           (<[file_ino f := IReg m (data tr ++ drop (length (data tr)) old)]>) w.
Proof.
  unfold Copy.
  destruct (inodes w !! file_ino f) as [[m|m old|t|m d]|]; try discriminate.
  destruct (read_err tr); [discriminate|]. intros [= <-]. eauto.
Qed.

Lemma node_at_update_inode w k i n :
  names w !! k = Some i -> node_at (with_inodes (<[i := n]>) w) k = Some n.
Proof.
  intros H. unfold node_at; simpl. rewrite H. apply lookup_insert_eq.
Qed.

Lemma lookup_update_inode w path i n :
  names w !! key w path = Some i -> String.eqb path "" = false ->
  lookup (with_inodes (<[i := n]>) w) path = Some n.
Proof.
  intros Hname Hne. unfold lookup. rewrite Hne.
  change (key (with_inodes (<[i := n]>) w) path) with (key w path).
  apply node_at_update_inode, Hname.
Qed.

Lemma masked_twelve_bits w mode :
  masked w (Z.land mode 0xfff) 0xfff =
  Z.land (Z.land mode 0xfff) (Z.lnot (umask w)).
Proof.
  unfold masked. apply Z.bits_inj'. intros i _. rewrite !Z.land_spec.
  destruct (Z.testbit mode i), (Z.testbit 0xfff i),
           (Z.testbit (Z.lnot (umask w)) i); reflexivity.
Qed.

(** C2 (the code departs from the claim).  [ExtractFile] opens the target of a
    regular-file entry with [O_CREATE|O_RDWR], without [O_TRUNC], and sets no
    mode afterwards (the directory case of the same switch calls [Chmod]).
    So whenever a regular file is already at the target path and the entry
    extracts, that file keeps its mode, and its bytes beyond the length of the
    entry's content stay behind the new bytes.  Over the eleven bytes
    "hello world" of [/tmp/out/f], mode 0600, the entry [f] of mode 0644 with
    the three bytes "bye" extracts without error, through [ExtractFile] and
    through [ExtractTar] alike, and leaves "byelo world" with mode 0600:
    neither the bytes of the entry nor its permission bits. *)
Theorem existing_file_keeps_tail_and_mode :
  (forall Quote tr hdr dir w w' m old,
      is_regular (Typeflag hdr) = true ->
      lookup w (Join dir (Name hdr)) = Some (IReg m old) ->
      ExtractFile Quote tr hdr dir w = (Ok tt, w') ->
      lookup w' (Join dir (Name hdr)) =
        Some (IReg m (data tr ++ drop (length (data tr)) old))) /\
  (let run := ExtractFile quote_plain bye pre_existing_f "/tmp/out" used_out in
   lookup used_out "/tmp/out/f" = Some (IReg 0x180 (bytes "hello world")) /\
   fst run = Ok tt /\
   lookup (snd run) "/tmp/out/f" = Some (IReg 0x180 (bytes "byelo world")) /\
   bytes "byelo world" <> data bye /\
   Z.land 0x180 0x1ff <> Z.land (Mode pre_existing_f) 0x1ff) /\
  (let run := ExtractTar quote_plain (mkReader [(pre_existing_f, bye)] None)
                "/tmp/out" used_out in
   fst run = Ok tt /\
   lookup (snd run) "/tmp/out/f" = Some (IReg 0x180 (bytes "byelo world"))).
Proof.
  split; [|split].
  - intros Quote tr hdr dir w w' m old Hreg Hthere Hrun.
    set (p := Join dir (Name hdr)) in *.
    unfold ExtractFile, bind in Hrun. fold p in Hrun.
    unfold is_regular in Hreg. rewrite Hreg in Hrun.
    destruct (MkdirAll (Dir p) DEFAULT_DIR_MODE w) as [[[]|e1] w1] eqn:H1;
      [|discriminate].
    destruct (MkdirAll (Dir p) DEFAULT_DIR_MODE w1) as [[[]|e2] w2] eqn:H2;
      [|discriminate].
    destruct (OpenFile p (Z.lor O_CREATE O_RDWR) (FileInfo_Mode hdr) w2)
      as [[f|e3] w3] eqn:HO; [|discriminate].
    destruct (Copy f tr w3) as [[[]|e4] w4] eqn:HC; [|discriminate].
    injection Hrun as <-.
    apply MkdirAll_spec in H1 as [Hg1 _]. apply MkdirAll_spec in H2 as [Hg2 _].
    assert (Hthere2 : lookup w2 p = Some (IReg m old)).
    { eapply lookup_only_adds_dirs; [exact Hg2|].
      eapply lookup_only_adds_dirs; [exact Hg1 | exact Hthere]. }
    apply OpenFile_create_rdwr in HO as [Hne Hopen].
    apply Copy_Ok in HC as [Hread (m' & old' & Hino & ->)].
    unfold lookup in Hthere2. rewrite Hne in Hthere2. unfold node_at in Hthere2.
    destruct Hopen as [(m0 & old0 & Hname & Hino0 & ->) | (Hfree & _ & _)].
    + rewrite Hname, Hino in Hthere2. injection Hthere2 as -> ->.
      apply lookup_update_inode; assumption.
    + rewrite Hfree in Hthere2. discriminate.
  - vm_compute. repeat split; try reflexivity; discriminate.
  - vm_compute. split; reflexivity.
Qed.

(** The general statement at the file [/tmp/out/f] of [used_out]. *)
Lemma existing_file_keeps_tail_and_mode_witness :
  lookup (snd (ExtractFile quote_plain bye pre_existing_f "/tmp/out" used_out))
         (Join "/tmp/out" (Name pre_existing_f)) =
  Some (IReg 0x180 (data bye ++ drop (length (data bye)) (bytes "hello world"))).
Proof.
  apply (proj1 existing_file_keeps_tail_and_mode quote_plain bye pre_existing_f
           "/tmp/out" used_out).
  - reflexivity.
  - reflexivity.
  - vm_compute. reflexivity.
Defined.

(** ** Directories *)

Lemma ExtractFile_directory Quote tr hdr dir w w1 :
  Typeflag hdr = TypeDir ->
  MkdirAll (Dir (Join dir (Name hdr))) DEFAULT_DIR_MODE w = (Ok tt, w1) ->
  ExtractFile Quote tr hdr dir w =
    bind (MkdirAll (Join dir (Name hdr)) (FileInfo_Mode hdr))
      (fun _ => bind (Open (Join dir (Name hdr)))
         (fun d w => match Chmod d (FileInfo_Mode hdr) w with
                     | (Err err, w') => bind (Close d) (fun _ => fail err) w'
                     | (Ok _, w') => Close d w'
                     end)) w1.
Proof.
  intros Htyp H. unfold ExtractFile. unfold bind at 1. rewrite H, Htyp.
  reflexivity.
Qed.

Lemma Open_Ok name w f w' :
  Open name w = (Ok f, w') ->
  w' = w /\ String.eqb name "" = false /\
  names w !! key w name = Some (file_ino f) /\
  exists n, inodes w !! file_ino f = Some n.
Proof.
  unfold Open, OpenFile. destruct (String.eqb name ""); [discriminate|].
  change (has_bit O_RDONLY O_TRUNC) with false.
  change (has_bit O_RDONLY O_CREATE) with false.
  change (wants_write O_RDONLY) with false. cbn [andb orb].
  destruct (names w !! key w name) as [i|] eqn:Hname; [|discriminate].
  destruct (inodes w !! i) as [[m|m old|t|m d]|] eqn:Hino; try discriminate;
    intros [= <- <-]; eauto 6.
Qed.

(** C6.  For a directory entry that [ExtractFile] extracts, the directory at
    the target path has the mode bits of the entry (permissions, setuid,
    setgid, sticky), so its nine permission bits are those of the entry's
    mode; this holds from every starting world, also one where the directory
    was already there with other bits, because the mode is set by [Chmod]
    after [MkdirAll]. *)
Theorem directory_mode_forced :
  forall Quote tr hdr dir w w',
    Typeflag hdr = TypeDir ->
    ExtractFile Quote tr hdr dir w = (Ok tt, w') ->
    exists mode,
      lookup w' (Join dir (Name hdr)) = Some (IDir mode) /\
      mode = Z.land (Mode hdr) 0xfff /\
      Z.land mode 0x1ff = Z.land (Mode hdr) 0x1ff.
Proof.
  intros Quote tr hdr dir w w' Htyp Hrun.
  set (p := Join dir (Name hdr)) in *.
  destruct (MkdirAll (Dir p) DEFAULT_DIR_MODE w) as [[[]|e1] w1] eqn:H1.
  2: { rewrite (ExtractFile_parent_fails Quote tr hdr dir w e1 w1 H1) in Hrun.
       discriminate. }
  rewrite (ExtractFile_directory Quote tr hdr dir w w1 Htyp H1) in Hrun.
  fold p in Hrun. unfold bind in Hrun.
  destruct (MkdirAll p (FileInfo_Mode hdr) w1) as [[[]|e2] w2] eqn:H2;
    [|discriminate].
  destruct (Open p w2) as [[d|e3] w3] eqn:HO; [|discriminate].
  apply Open_Ok in HO as (-> & Hne & Hname & n & Hino).
  apply MkdirAll_spec in H2 as [_ Hdir].
  destruct (Hdir eq_refl) as [m0 Hm0].
  unfold lookup in Hm0. rewrite Hne in Hm0. unfold node_at in Hm0.
  rewrite Hname, Hino in Hm0. injection Hm0 as ->.
  unfold Chmod in Hrun. rewrite Hino in Hrun. cbn in Hrun.
  injection Hrun as <-.
  exists (Z.land (Mode hdr) 0xfff). split; [|split; [reflexivity|]].
  - rewrite syscallMode_FileInfo_Mode, land_submask by reflexivity.
    apply lookup_update_inode; assumption.
  - apply land_submask. reflexivity.
Qed.

(** [/tmp/out/d] is there with mode 0700; the entry [d/] of mode 0755 leaves
    it with mode 0755. *)
Lemma directory_mode_forced_witness :
  lookup used_out "/tmp/out/d" = Some (IDir 0x1c0) /\
  exists mode,
    lookup (snd (ExtractFile quote_plain no_content dir_d_open "/tmp/out" used_out))
           (Join "/tmp/out" (Name dir_d_open)) = Some (IDir mode) /\
    mode = Z.land (Mode dir_d_open) 0xfff /\
    Z.land mode 0x1ff = Z.land (Mode dir_d_open) 0x1ff.
Proof.
  split; [reflexivity|].
  apply (directory_mode_forced quote_plain no_content dir_d_open "/tmp/out"
           used_out).
  - reflexivity.
  - vm_compute. reflexivity.
Defined.

(** ** ExtractFileFromTar *)

(** The recursion of [find_file] is the loop of the source as well. *)
Lemma find_file_Next tr file :
  find_file (entries tr) (ending tr) file =
  match Next tr with
  | (NextEOF, _) => Err (errorString "file not found")
  | (NextHeader hdr content, tr') =>
      if negb (String.eqb (Clean (Name hdr)) (Clean file)) then
        find_file (entries tr') (ending tr') file
      else if negb (is_regular (Typeflag hdr)) then
        Err (errorString "requested file not a regular file")
      else
        match ReadAll content with
        | Err err => Err (wrap_extracting err)
        | Ok buf => Ok buf
        end
  | (NextError err, _) => Err (wrap_extracting err)
  end.
Proof. destruct tr as [[|[hdr content] rest] [err|]]; reflexivity. Qed.

(** C5.  [ExtractFileFromTar] is decided by the first entry, in stream order,
    whose cleaned name equals the cleaned wanted name: if that entry is not a
    regular file the result is the not-a-regular-file error; if it is one, the
    result is the whole content of the entry (or the wrapped error of a
    failing read); with no such entry before the end of the stream the result
    is the not-found error (or the wrapped error the stream ends with).  On
    the archive [a/b.txt] (regular, "hello"), [a/] (directory): [a/b.txt]
    gives "hello", [a/] the not-a-regular-file error, [missing] the not-found
    error. *)
Theorem ExtractFileFromTar_first_match :
  forall tr file,
    ExtractFileFromTar tr file =
      match List.find (names_file file) (entries tr) with
      | Some (hdr, content) =>
          if is_regular (Typeflag hdr) then
            match read_err content with
            | None => Ok (data content)
            | Some err => Err (wrap_extracting err)
            end
          else Err (errorString "requested file not a regular file")
      | None =>
          match ending tr with
          | None => Err (errorString "file not found")
          | Some err => Err (wrap_extracting err)
          end
      end /\
    ExtractFileFromTar archive_a "a/b.txt" = Ok (bytes "hello") /\
    ExtractFileFromTar archive_a "a/" =
      Err (errorString "requested file not a regular file") /\
    ExtractFileFromTar archive_a "missing" = Err (errorString "file not found").
Proof.
  intros [es ending] file. split; [|repeat split; reflexivity].
  unfold ExtractFileFromTar. cbn [entries Tar.ending].
  induction es as [|[hdr content] rest IH]; simpl; [reflexivity|].
  unfold names_file at 1. cbn [fst].
  destruct (String.eqb (Clean (Name hdr)) (Clean file)); cbn [negb].
  - destruct (is_regular (Typeflag hdr)); cbn [negb]; [|reflexivity].
    unfold ReadAll. destruct (read_err content); reflexivity.
  - exact IH.
Qed.

(** ** Links that leave the destination *)

(** C1 (the code departs from the claim).  Under the destination root
    [/tmp/out], the symbolic link and the hard link [l] with target
    [../outside/secret] resolve to [/tmp/outside/secret], which lies strictly
    outside the root but has the root's characters as a prefix.  [ExtractFile]
    reports no error for either and creates the link at [/tmp/out/l]: the
    hard link shows the bytes of the file outside the root.  Under the root
    [.], from inside [/tmp/out], the target [../../etc/passwd] resolves to
    [../../etc/passwd], which starts with the character [.]: the symbolic link
    is created as well. *)
Theorem link_beside_root_accepted :
  (let dir := "/tmp/out" in
   let dest_symlink := Join (Dir (Join dir "l")) "../outside/secret" in
   let dest_hardlink := Join dir "../outside/secret" in
   let run_symlink :=
     ExtractFile quote_plain no_content sibling_symlink dir neighbour_out in
   let run_hardlink :=
     ExtractFile quote_plain no_content sibling_hardlink dir neighbour_out in
   dest_symlink = "/tmp/outside/secret" /\
   dest_hardlink = "/tmp/outside/secret" /\
   inside_root dir "/tmp/outside/secret" = false /\
   HasPrefix "/tmp/outside/secret" dir = true /\
   lookup neighbour_out "/tmp/out/l" = None /\
   fst run_symlink = Ok tt /\
   readlink (snd run_symlink) "/tmp/out/l" = Some "../outside/secret" /\
   fst run_hardlink = Ok tt /\
   lookup (snd run_hardlink) "/tmp/out/l" = Some (IReg 0x180 (bytes "key"))) /\
  (let dir := "." in
   let dest := Join (Dir (Join dir "l")) "../../etc/passwd" in
   let run := ExtractFile quote_plain no_content escaping_symlink dir inside_out in
   dest = "../../etc/passwd" /\
   inside_root dir dest = false /\
   HasPrefix dest dir = true /\
   lookup inside_out "l" = None /\
   fst run = Ok tt /\
   readlink (snd run) "l" = Some "../../etc/passwd").
Proof. vm_compute. repeat split; reflexivity. Qed.

(** What the prefix test does refuse: the target [../../etc/passwd] of the
    specification's example, from the same root. *)
Example escaping_link_refused :
  let hdr := mkHeader "l" 0x1ff TypeSymlink "../../etc/passwd" 0 0 in
  let run := ExtractFile quote_plain no_content hdr "/tmp/out" empty_out in
  fst run = Err (insecureLinkError
                   (errorString
                      (insecure_symlink_message quote_plain "/tmp/out/l"
                         "../../etc/passwd"))) /\
  lookup (snd run) "/tmp/out/l" = None.
Proof. vm_compute. split; reflexivity. Qed.

(** ** The error of a refused link, seen by the caller of ExtractTar *)

Lemma extract_entries_error Quote es ending dir w e w' :
  extract_entries Quote es ending dir w = (Err e, w') ->
  exists cause, e = wrap_extracting cause.
Proof.
  revert w. induction es as [|[hdr tr] rest IH]; intros w; simpl.
  - destruct ending; intros [= <- _]; eauto.
  - destruct (ExtractFile Quote tr hdr dir w) as [[[]|e1] w1].
    + apply IH.
    + intros [= <- _]. eauto.
Qed.

(** C9 (the code departs from the claim).  Every error [ExtractTar] returns
    is an [*errors.errorString] built by [fmt.Errorf] from the text of its
    cause: the conversion to [insecureLinkError] leaves no mark on the value
    and the wrapping keeps only the text.  So the refusal of an escaping
    symlink and a stream whose read fails with an error of the same text
    return equal errors: nothing but the words of the message tells a security
    rejection from an I/O fault. *)
Theorem insecure_link_error_not_marked :
  (forall e, insecureLinkError e = e) /\
  (forall Quote tr dir w e w',
      ExtractTar Quote tr dir w = (Err e, w') ->
      exists cause, e = errorString ("error extracting tarball: " +:+ Error cause)) /\
  (let rejected :=
     ExtractTar quote_plain (mkReader [(escaping_symlink, no_content)] None)
       "/tmp/out" empty_out in
   let read_fault :=
     ExtractTar quote_plain (mkReader [] (Some (errorString refusal_text)))
       "/tmp/out" empty_out in
   fst rejected = Err (errorString ("error extracting tarball: " +:+ refusal_text)) /\
   fst read_fault = fst rejected).
Proof.
  split; [reflexivity|]. split.
  - intros Quote tr dir w e w'. unfold ExtractTar, Umask.
    destruct (extract_entries Quote (entries tr) (ending tr) dir
                (with_umask (Z.land 0 511) w)) as [[[]|e1] w1] eqn:Hrun;
      intros [= <- _].
    apply extract_entries_error in Hrun as [cause ->]. exists cause. reflexivity.
  - vm_compute. split; reflexivity.
Qed.

(** * Further properties *)

(** ** makedev, read back *)

Lemma testbit_land_low a n i :
  0 <= n -> Z.testbit (Z.land a (Z.ones n)) i = Z.testbit a i && (i <? n).
Proof.
  intros Hn. rewrite Z.land_spec, Z.testbit_ones by lia.
  destruct (Z.leb_spec 0 i); [reflexivity|].
  rewrite Z.testbit_neg_r by lia. reflexivity.
Qed.

Lemma testbit_land_high a n i :
  0 <= n ->
  Z.testbit (Z.land a (Z.lnot (Z.ones n))) i = Z.testbit a i && negb (i <? n).
Proof.
  intros Hn. destruct (Z_lt_le_dec i 0).
  - rewrite !Z.testbit_neg_r by lia. reflexivity.
  - rewrite Z.land_spec, Z.lnot_spec, Z.testbit_ones_nonneg by lia. reflexivity.
Qed.

Lemma testbit_land_between a lo hi i :
  0 <= lo -> 0 <= hi ->
  Z.testbit (Z.land a (Z.land (Z.ones hi) (Z.lnot (Z.ones lo)))) i =
  Z.testbit a i && ((i <? hi) && negb (i <? lo)).
Proof.
  intros Hlo Hhi. rewrite Z.land_assoc, testbit_land_high, testbit_land_low by lia.
  rewrite andb_assoc. reflexivity.
Qed.

Lemma dev_encoding_testbit major minor j :
  0 <= j ->
  Z.testbit (dev_encoding major minor) j =
    Z.testbit minor j && (j <? 8)
    || Z.testbit major (j - 8) && (j - 8 <? 12)
    || Z.testbit minor (j - 12) && negb (j - 12 <? 8)
    || Z.testbit major (j - 32) && negb (j - 32 <? 12).
Proof.
  intros Hj. unfold dev_encoding.
  change 0xff with (Z.ones 8). change 0xfff with (Z.ones 12).
  rewrite !Z.lor_spec, !Z.shiftl_spec by lia.
  rewrite !testbit_land_low, !testbit_land_high by lia. reflexivity.
Qed.

Ltac split_comparisons :=
  repeat match goal with
         | |- context [?a <? ?b] => destruct (Z.ltb_spec a b)
         end;
  try lia; cbn [andb orb negb];
  rewrite ?andb_false_r, ?andb_true_r, ?orb_false_r, ?orb_false_l.

Lemma dev_major_encoding major minor :
  0 <= major < 2 ^ 32 -> 0 <= minor < 2 ^ 32 ->
  dev_major (dev_encoding major minor) = major.
Proof.
  intros Hmajor Hminor. apply Z.bits_inj'. intros i Hi. unfold dev_major.
  change 0xfff with (Z.ones 12).
  change 0xfffff000 with (Z.land (Z.ones 32) (Z.lnot (Z.ones 12))).
  rewrite Z.lor_spec, testbit_land_low, testbit_land_between by lia.
  rewrite !Z.shiftr_spec, !dev_encoding_testbit by lia.
  replace (i + 8 - 8) with i by lia. replace (i + 32 - 32) with i by lia.
  split_comparisons; try reflexivity.
  all: try (rewrite (testbit_small_const minor 32) by lia).
  all: try (rewrite (testbit_small_const major 32 i) by lia).
  all: try reflexivity.
  all: try (destruct (Z.testbit major i); reflexivity).
Qed.

Lemma dev_minor_encoding major minor :
  0 <= major < 2 ^ 32 -> 0 <= minor < 2 ^ 32 ->
  dev_minor (dev_encoding major minor) = minor.
Proof.
  intros Hmajor Hminor. apply Z.bits_inj'. intros i Hi. unfold dev_minor.
  change 0xff with (Z.ones 8).
  change 0xffffff00 with (Z.land (Z.ones 32) (Z.lnot (Z.ones 8))).
  rewrite Z.lor_spec, testbit_land_low, testbit_land_between by lia.
  rewrite !Z.shiftr_spec, !dev_encoding_testbit by lia.
  replace (i + 12 - 12) with i by lia.
  split_comparisons; try reflexivity.
  all: try (rewrite (testbit_small_const minor 32 i) by lia).
  all: try (rewrite (Z.testbit_neg_r major) by lia).
  all: try (rewrite (Z.testbit_neg_r minor) by lia).
  all: try reflexivity.
  all: try (destruct (Z.testbit minor i); reflexivity).
Qed.

Lemma makedev_unsigned major minor :
  0 <= major < 2 ^ 32 -> 0 <= minor < 2 ^ 32 ->
  Int.to_uint64 (makedev major minor) = dev_encoding major minor.
Proof.
  intros Hmajor Hminor. rewrite makedev_to_int, to_uint64_to_int.
  apply dev_encoding_uint64; assumption.
Qed.

(** Decoding the unsigned reading of [makedev major minor] gives [major] and
    [minor] back. *)
Lemma makedev_round_trip :
  forall major minor,
    0 <= major < 2 ^ 32 -> 0 <= minor < 2 ^ 32 ->
    dev_major (Int.to_uint64 (makedev major minor)) = major /\
    dev_minor (Int.to_uint64 (makedev major minor)) = minor.
Proof.
  intros major minor Hmajor Hminor. rewrite makedev_unsigned by assumption.
  split; [apply dev_major_encoding | apply dev_minor_encoding]; assumption.
Qed.

(** X1.  On majors and minors within 32 bits [makedev] is injective: two
    device pairs with the same device number are the same pair. *)
Theorem makedev_injective :
  forall major minor major' minor',
    0 <= major < 2 ^ 32 -> 0 <= minor < 2 ^ 32 ->
    0 <= major' < 2 ^ 32 -> 0 <= minor' < 2 ^ 32 ->
    makedev major minor = makedev major' minor' ->
    major = major' /\ minor = minor'.
Proof.
  intros major minor major' minor' HM Hm HM' Hm' Heq.
  assert (Henc : dev_encoding major minor = dev_encoding major' minor').
  { rewrite <- (makedev_unsigned major minor), <- (makedev_unsigned major' minor')
      by assumption. rewrite Heq. reflexivity. }
  split.
  - rewrite <- (dev_major_encoding major minor), <- (dev_major_encoding major' minor')
      by assumption. rewrite Henc. reflexivity.
  - rewrite <- (dev_minor_encoding major minor), <- (dev_minor_encoding major' minor')
      by assumption. rewrite Henc. reflexivity.
Qed.

Lemma dev_encoding_classic major minor :
  0 <= major < 2 ^ 12 -> 0 <= minor < 2 ^ 8 ->
  dev_encoding major minor = major * 256 + minor.
Proof.
  intros Hmajor Hminor.
  assert (Hbits : dev_encoding major minor = Z.lor minor (Z.shiftl major 8)).
  { apply Z.bits_inj'. intros i Hi.
    rewrite dev_encoding_testbit, !Z.lor_spec, Z.shiftl_spec by lia.
    split_comparisons; try reflexivity.
    all: repeat first
           [ rewrite (testbit_small_const minor 8 i) by lia
           | rewrite (testbit_small_const minor 8 (i - 12)) by lia
           | rewrite (testbit_small_const major 12 (i - 8)) by lia
           | rewrite (testbit_small_const major 12 (i - 32)) by lia
           | rewrite (Z.testbit_neg_r major (i - 8)) by lia
           | rewrite (Z.testbit_neg_r major (i - 32)) by lia
           | rewrite (Z.testbit_neg_r minor (i - 12)) by lia ].
    all: rewrite ?orb_false_r, ?orb_false_l; try reflexivity. }
  rewrite Hbits.
  assert (Hdisjoint : Z.land minor (Z.shiftl major 8) = 0).
  { apply Z.bits_inj'. intros i Hi.
    rewrite Z.land_spec, Z.shiftl_spec, Z.bits_0 by lia.
    destruct (Z_lt_le_dec i 8).
    - rewrite (Z.testbit_neg_r major) by lia. apply andb_false_r.
    - rewrite (testbit_small_const minor 8) by lia. reflexivity. }
  pose proof (Z.add_lor_land minor (Z.shiftl major 8)) as Hadd.
  rewrite Hdisjoint in Hadd. rewrite Z.shiftl_mul_pow2 in * by lia. lia.
Qed.

(** X2.  For a major below 4096 and a minor below 256 the device number is
    [major * 256 + minor]. *)
Theorem makedev_classic :
  forall major minor,
    0 <= major < 2 ^ 12 -> 0 <= minor < 2 ^ 8 ->
    makedev major minor = major * 256 + minor.
Proof.
  intros major minor Hmajor Hminor.
  rewrite makedev_exact; rewrite dev_encoding_classic by assumption;
    [reflexivity|]. unfold Int.in_int. lia.
Qed.

(** ** Archives in sequence *)

Lemma with_umask_twice m m' w : with_umask m (with_umask m' w) = with_umask m w.
Proof. reflexivity. Qed.

Lemma with_umask_same w : with_umask (umask w) w = w.
Proof. destruct w. reflexivity. Qed.

Lemma extract_entries_umask Quote es ending dir w r w' :
  extract_entries Quote es ending dir w = (r, w') -> umask w' = umask w.
Proof.
  intros H. pose proof (quiet_extract_entries Quote es ending dir w) as Hq.
  rewrite H in Hq. apply Hq.
Qed.

(** The run of [ExtractTar] in terms of the run of its loop. *)
Lemma ExtractTar_unfold Quote tr dir w :
  ExtractTar Quote tr dir w =
  let run := extract_entries Quote (entries tr) (ending tr) dir
               (with_umask (Z.land 0 0x1ff) w) in
  (fst run, with_umask (Z.land (umask w) 0x1ff) (snd run)).
Proof.
  unfold ExtractTar, Umask.
  destruct (extract_entries Quote (entries tr) (ending tr) dir
              (with_umask (Z.land 0 511) w)) as [r w1].
  reflexivity.
Qed.

(** X3.  Extraction composes: when the entries [es] extract, extracting
    [es ++ more] from a world is extracting [more] from the world that [es]
    left, result and world alike (the umask included). *)
Theorem ExtractTar_concatenation :
  forall Quote es more ending dir w w1,
    ExtractTar Quote (mkReader es None) dir w = (Ok tt, w1) ->
    ExtractTar Quote (mkReader (es ++ more) ending) dir w =
    ExtractTar Quote (mkReader more ending) dir w1.
Proof.
  intros Quote es more ending dir w w1. rewrite !ExtractTar_unfold.
  cbn [entries Tar.ending]. cbv zeta. rewrite extract_entries_app.
  destruct (extract_entries Quote es None dir (with_umask (Z.land 0 511) w))
    as [[[]|e] wi] eqn:Hrun; cbn [fst snd]; [|discriminate].
  intros [= <-]. apply extract_entries_umask in Hrun. cbn [umask with_umask] in *.
  rewrite with_umask_twice, <- Hrun, with_umask_same.
  rewrite land_submask by reflexivity. reflexivity.
Qed.

(** X4.  The walk stops at the first failure: when [es] fails, anything that
    follows in the stream (entries, a broken end) changes neither the error
    nor the world. *)
Theorem ExtractTar_stops_at_first_failure :
  forall Quote es more ending dir w e w',
    ExtractTar Quote (mkReader es None) dir w = (Err e, w') ->
    ExtractTar Quote (mkReader (es ++ more) ending) dir w = (Err e, w').
Proof.
  intros Quote es more ending dir w e w'. rewrite !ExtractTar_unfold.
  cbn [entries Tar.ending]. cbv zeta. rewrite extract_entries_app.
  destruct (extract_entries Quote es None dir (with_umask (Z.land 0 511) w))
    as [[[]|e0] wi]; cbn [fst snd]; [discriminate|]. intros H. exact H.
Qed.

(** X5.  A stream that breaks after its entries: when the entries extract,
    the same entries followed by a read error leave the same world, and the
    call returns the read error, wrapped. *)
Theorem ExtractTar_broken_stream :
  forall Quote es err dir w w',
    ExtractTar Quote (mkReader es None) dir w = (Ok tt, w') ->
    ExtractTar Quote (mkReader es (Some err)) dir w =
      (Err (wrap_extracting err), w').
Proof.
  intros Quote es err dir w w'. rewrite !ExtractTar_unfold.
  cbn [entries Tar.ending]. cbv zeta.
  replace (extract_entries Quote es (Some err) dir (with_umask (Z.land 0 511) w))
    with (extract_entries Quote (es ++ []) (Some err) dir
            (with_umask (Z.land 0 511) w))
    by (rewrite app_nil_r; reflexivity).
  rewrite extract_entries_app.
  destruct (extract_entries Quote es None dir (with_umask (Z.land 0 511) w))
    as [[[]|e0] wi]; cbn [fst snd]; [|discriminate].
  intros [= <-]. reflexivity.
Qed.

(** ** What extraction never does to what is there *)

Lemma same_kind_refl n : same_kind n n.
Proof. destruct n; simpl; auto. Qed.

Lemma same_kind_trans n1 n2 n3 :
  same_kind n1 n2 -> same_kind n2 n3 -> same_kind n1 n3.
Proof.
  destruct n1, n2, n3; simpl; try tauto; try congruence.
  intros [] []. split; congruence.
Qed.

Lemma steady_refl w : steady w w.
Proof. split; [reflexivity|]. intros k n Hn. exists n. split; [exact Hn | apply same_kind_refl]. Qed.

Lemma steady_trans w1 w2 w3 : steady w1 w2 -> steady w2 w3 -> steady w1 w3.
Proof.
  intros [Hc1 H1] [Hc2 H2]. split; [congruence|].
  intros k n Hn. destruct (H1 k n Hn) as (n2 & Hn2 & Hk2).
  destruct (H2 k n2 Hn2) as (n3 & Hn3 & Hk3).
  exists n3. split; [exact Hn3 | eapply same_kind_trans; eassumption].
Qed.

Lemma steady_update_inode w i n old :
  inodes w !! i = Some old -> same_kind old n ->
  steady w (with_inodes (<[i := n]>) w).
Proof.
  intros Hold Hkind. split; [reflexivity|]. intros k x. unfold node_at; simpl.
  destruct (names w !! k) as [j|]; [|discriminate].
  destruct (decide (i = j)) as [<- | Hne].
  - rewrite lookup_insert_eq, Hold. intros [= <-]. eauto.
  - rewrite lookup_insert_ne by done. intros Hx. exists x.
    split; [exact Hx | apply same_kind_refl].
Qed.

Lemma steady_add_node w k n :
  names w !! k = None -> steady w (add_node k n w).
Proof.
  intros Hfree. split; [reflexivity|]. intros k' x Hx. exists x.
  split; [apply node_at_add_node_keeps; assumption | apply same_kind_refl].
Qed.

Lemma steady_add_name w k i :
  names w !! k = None -> steady w (with_names (<[k := i]>) w).
Proof.
  intros Hfree. split; [reflexivity|]. intros k' x. unfold node_at; simpl.
  destruct (decide (k = k')) as [<- | Hne].
  - rewrite Hfree. discriminate.
  - rewrite lookup_insert_ne by done. intros Hx. exists x.
    split; [exact Hx | apply same_kind_refl].
Qed.

Lemma steady_only_adds_dirs mode w w' : only_adds_dirs mode w w' -> steady w w'.
Proof.
  intros (Hc & _ & H). split; [exact Hc|]. intros k x Hx. exists x.
  split; [|apply same_kind_refl]. destruct (H k) as [E | [N _]]; congruence.
Qed.

Lemma steadily_ret {A} (a : A) : steadily (ret a).
Proof. intros w. apply steady_refl. Qed.

Lemma steadily_fail {A} (e : error) : steadily (@fail A e).
Proof. intros w. apply steady_refl. Qed.

Lemma steadily_bind {A B} (m : M A) (k : A -> M B) :
  steadily m -> (forall a, steadily (k a)) -> steadily (bind m k).
Proof.
  intros Hm Hk w. unfold bind. specialize (Hm w).
  destruct (m w) as [[a|e] w1]; simpl in *; [|exact Hm].
  eapply steady_trans; [exact Hm | apply Hk].
Qed.

Lemma steadily_handled {A B} (m : M A) (on_err : error -> M B) (on_ok : A -> M B) :
  steadily m -> (forall e, steadily (on_err e)) -> (forall a, steadily (on_ok a)) ->
  steadily (fun w => match m w with
                     | (Err err, w') => on_err err w'
                     | (Ok a, w') => on_ok a w'
                     end).
Proof.
  intros Hm He Ha w. specialize (Hm w).
  destruct (m w) as [[a|e] w1]; simpl in *;
    (eapply steady_trans; [exact Hm|]); [apply Ha | apply He].
Qed.

Lemma steadily_MkdirAll path perm : steadily (MkdirAll path perm).
Proof.
  intros w. destruct (MkdirAll path perm w) as [r w'] eqn:H.
  apply MkdirAll_spec in H as [Hg _]. eapply steady_only_adds_dirs, Hg.
Qed.

Lemma steadily_OpenFile name flag perm : steadily (OpenFile name flag perm).
Proof.
  intros w. unfold OpenFile.
  destruct (String.eqb name ""); [apply steady_refl|].
  destruct (names w !! key w name) as [i|] eqn:Hname.
  - destruct (inodes w !! i) as [[m|m old|t|m d]|] eqn:Hino; simpl;
      try apply steady_refl.
    + destruct (wants_write flag || has_bit flag O_CREATE); apply steady_refl.
    + destruct (has_bit flag O_TRUNC && wants_write flag); [|apply steady_refl].
      eapply steady_update_inode; [exact Hino | exact I].
  - destruct (has_bit flag O_CREATE); [|apply steady_refl].
    destruct (creatable w (key w name)); [apply steady_refl|].
    apply steady_add_node, Hname.
Qed.

Lemma steadily_Copy f tr : steadily (Copy f tr).
Proof.
  intros w. unfold Copy.
  destruct (inodes w !! file_ino f) as [[m|m old|t|m d]|] eqn:Hino;
    try apply steady_refl.
  destruct (read_err tr); simpl;
    (eapply steady_update_inode; [exact Hino | exact I]).
Qed.

Lemma device_kind_kept m bits :
  Z.land (Z.lor (Z.land m S_IFMT) (Z.land bits 0xfff)) S_IFMT = Z.land m S_IFMT.
Proof.
  rewrite Z.land_lor_distr_l, <- !Z.land_assoc.
  change (Z.land S_IFMT S_IFMT) with S_IFMT.
  change (Z.land 0xfff S_IFMT) with 0.
  rewrite Z.land_0_r, Z.lor_0_r. reflexivity.
Qed.

Lemma steadily_Chmod f mode : steadily (Chmod f mode).
Proof.
  intros w. unfold Chmod.
  destruct (inodes w !! file_ino f) as [[m|m old|t|m d]|] eqn:Hino; simpl;
    try apply steady_refl;
    (eapply steady_update_inode; [exact Hino|]); simpl; auto.
  split; [|reflexivity]. symmetry. apply device_kind_kept.
Qed.

Lemma steadily_Link oldname newname : steadily (Link oldname newname).
Proof.
  intros w. unfold Link.
  destruct (String.eqb oldname ""); [apply steady_refl|].
  destruct (names w !! key w oldname) as [i|]; [|apply steady_refl].
  destruct (inodes w !! i) as [[m|m old|t|m d]|]; try apply steady_refl;
    (destruct (refusal w newname) eqn:Hr; [apply steady_refl|]);
    apply steady_add_name; apply refusal_None in Hr; apply Hr.
Qed.

Lemma steadily_Symlink oldname newname : steadily (Symlink oldname newname).
Proof.
  intros w. unfold Symlink.
  destruct (String.eqb oldname ""); [apply steady_refl|].
  destruct (refusal w newname) eqn:Hr; [apply steady_refl|].
  apply steady_add_node. apply refusal_None in Hr. apply Hr.
Qed.

Lemma steadily_Mknod path mode dev : steadily (Mknod path mode dev).
Proof.
  intros w. unfold Mknod.
  destruct (negb _); [apply steady_refl|].
  destruct (refusal w path) eqn:Hr; [apply steady_refl|].
  apply steady_add_node. apply refusal_None in Hr. apply Hr.
Qed.

Lemma steadily_Close f : steadily (Close f).
Proof. apply steadily_ret. Qed.

Ltac steady_dispatch :=
  repeat match goal with
         | |- steadily (if ?b then _ else _) => destruct b
         end;
  first
    [ apply steadily_fail
    | apply steadily_Link
    | apply steadily_Symlink
    | apply steadily_Mknod
    | apply steadily_bind; [apply steadily_MkdirAll|]; intros _;
      apply steadily_bind; [apply steadily_OpenFile|]; intros ?;
      apply steadily_handled;
      [ first [apply steadily_Copy | apply steadily_Chmod]
      | intros ?; apply steadily_bind;
        [apply steadily_Close | intros; apply steadily_fail]
      | intros; apply steadily_Close ] ].

Lemma steadily_ExtractFile Quote tr hdr dir : steadily (ExtractFile Quote tr hdr dir).
Proof.
  unfold ExtractFile.
  apply steadily_bind; [apply steadily_MkdirAll|]. intros _. steady_dispatch.
Qed.

Lemma steadily_extract_entries Quote es ending dir :
  steadily (extract_entries Quote es ending dir).
Proof.
  induction es as [|[hdr tr] rest IH]; simpl.
  - destruct ending; [apply steadily_fail | apply steadily_ret].
  - intros w. pose proof (steadily_ExtractFile Quote tr hdr dir w) as H.
    destruct (ExtractFile Quote tr hdr dir w) as [[[]|e] w1]; simpl in *.
    + eapply steady_trans; [exact H | apply IH].
    + exact H.
Qed.

Lemma lookup_steady w w' path n :
  steady w w' -> lookup w path = Some n ->
  exists n', lookup w' path = Some n' /\ same_kind n n'.
Proof.
  intros [Hc H]. unfold lookup. destruct (String.eqb path ""); [discriminate|].
  rewrite (key_same_cwd w w' path Hc). apply H.
Qed.

(** X6.  Whatever [ExtractTar] returns, every object that was there before
    the call is there after it, under the same path and of the same kind: no
    name is removed, no directory, file, link or device node becomes
    something else, no link is retargeted, no device number changes. *)
Theorem ExtractTar_keeps_what_is_there :
  forall Quote tr dir w r w' path n,
    ExtractTar Quote tr dir w = (r, w') ->
    lookup w path = Some n ->
    exists n', lookup w' path = Some n' /\ same_kind n n'.
Proof.
  intros Quote tr dir w r w' path n. rewrite ExtractTar_unfold. cbv zeta.
  intros [= _ <-] Hn. rewrite lookup_with_umask.
  eapply lookup_steady; [|rewrite lookup_with_umask; exact Hn].
  apply steadily_extract_entries.
Qed.

(** ** Hard links *)

Lemma Link_Ok oldname newname w w' :
  Link oldname newname w = (Ok tt, w') ->
  exists i n,
    names w !! key w oldname = Some i /\ inodes w !! i = Some n /\
    IsDir n = false /\ String.eqb oldname "" = false /\
    String.eqb newname "" = false /\ names w !! key w newname = None /\
    w' = with_names (<[key w newname := i]>) w.
Proof.
  unfold Link. destruct (String.eqb oldname "") eqn:Hold; [discriminate|].
  destruct (names w !! key w oldname) as [i|] eqn:Hname; [|discriminate].
  destruct (inodes w !! i) as [n|] eqn:Hino; [|discriminate].
  destruct n as [m|m c|t|m d]; [discriminate| | |];
    (destruct (refusal w newname) eqn:Hr; [discriminate|]);
    intros [= <-]; apply refusal_None in Hr as [Hnew Hfree];
    eexists _, _; repeat split; eauto.
Qed.

(** X7.  A hard-link entry that [ExtractFile] extracts leaves the target
    path and the link destination [Join dir linkname] as two names of one
    inode, which is not a directory. *)
Theorem hard_link_shares_the_file :
  forall Quote tr hdr dir w w',
    Typeflag hdr = TypeLink ->
    ExtractFile Quote tr hdr dir w = (Ok tt, w') ->
    let p := Join dir (Name hdr) in
    let dest := Join dir (Linkname hdr) in
    exists i n,
      names w' !! key w' p = Some i /\
      names w' !! key w' dest = Some i /\
      inodes w' !! i = Some n /\ IsDir n = false /\
      lookup w' p = Some n /\ lookup w' dest = Some n.
Proof.
  intros Quote tr hdr dir w w' Htyp Hrun p dest.
  destruct (MkdirAll (Dir p) DEFAULT_DIR_MODE w) as [[[]|e] w1] eqn:Hparent.
  2: { rewrite (ExtractFile_parent_fails Quote tr hdr dir w e w1 Hparent) in Hrun.
       discriminate. }
  rewrite (ExtractFile_link Quote tr hdr dir w w1 Htyp Hparent) in Hrun.
  fold p dest in Hrun. destruct (HasPrefix dest dir); [|discriminate].
  apply Link_Ok in Hrun as (i & n & Hname & Hino & Hdir & Hold & Hnew & Hfree & ->).
  change (key (with_names (<[key w1 p := i]>) w1)) with (key w1).
  assert (Hp : names (with_names (<[key w1 p := i]>) w1) !! key w1 p = Some i).
  { simpl. apply lookup_insert_eq. }
  assert (Hd : names (with_names (<[key w1 p := i]>) w1) !! key w1 dest = Some i).
  { simpl. rewrite lookup_insert. destruct (decide (key w1 p = key w1 dest)); [reflexivity | exact Hname]. }
  exists i, n. repeat split; try assumption.
  - unfold lookup. rewrite Hnew.
    change (key (with_names (<[key w1 p := i]>) w1)) with (key w1).
    unfold node_at. rewrite Hp. exact Hino.
  - unfold lookup. rewrite Hold.
    change (key (with_names (<[key w1 p := i]>) w1)) with (key w1).
    unfold node_at. rewrite Hd. exact Hino.
Qed.

(** ** Device nodes *)

Lemma land_within a k k' : Z.land k k' = k -> Z.land (Z.land a k) k' = Z.land a k.
Proof. intros H. rewrite <- Z.land_assoc, H. reflexivity. Qed.

Lemma land_swap x a b : Z.land (Z.land x a) b = Z.land (Z.land x b) a.
Proof.
  apply Z.bits_inj'. intros i _. rewrite !Z.land_spec.
  destruct (Z.testbit x i), (Z.testbit a i), (Z.testbit b i); reflexivity.
Qed.

Lemma FileInfo_Mode_low16 h :
  Z.land (FileInfo_Mode h) 0xffff = Z.land (Mode h) 0x1ff.
Proof.
  unfold FileInfo_Mode. cbv zeta.
  repeat match goal with
         | |- context [if ?b then _ else _] =>
             lazymatch b with
             | context [Typeflag] => destruct b
             end
         end;
    rewrite ?(land_lor_outside _ _ 0xffff) by reflexivity;
    rewrite !land_set_if_outside by reflexivity;
    (rewrite land_within by reflexivity); apply mod_2_32_low; reflexivity.
Qed.

Lemma Mknod_device_mode w h kind :
  Z.land kind 0xffff = kind -> Z.land kind S_IFMT = kind ->
  Z.land kind 0xfff = 0 ->
  let m := Z.lor (FileInfo_Mode h) kind mod 2 ^ 16 in
  Z.land m S_IFMT = kind /\
  masked w m 0xfff = Z.land (Z.land (Mode h) 0x1ff) (Z.lnot (umask w)).
Proof.
  intros H16 Hfmt Hperm m.
  assert (Hm : m = Z.lor (Z.land (Mode h) 0x1ff) kind).
  { unfold m. change (2 ^ 16) with (2 ^ 16). rewrite <- Z.land_ones by lia.
    change (Z.ones 16) with 0xffff.
    rewrite Z.land_lor_distr_l, FileInfo_Mode_low16, H16. reflexivity. }
  rewrite Hm. split.
  - rewrite Z.land_lor_distr_l, Hfmt, <- Z.land_assoc.
    change (Z.land 0x1ff S_IFMT) with 0. rewrite Z.land_0_r. reflexivity.
  - unfold masked.
    rewrite land_swap, Z.land_lor_distr_l, Hperm, Z.lor_0_r.
    rewrite (land_within (Mode h) 0x1ff 0xfff) by reflexivity. reflexivity.
Qed.

Lemma ExtractFile_device Quote tr hdr dir w w1 :
  Typeflag hdr = TypeChar \/ Typeflag hdr = TypeBlock ->
  MkdirAll (Dir (Join dir (Name hdr))) DEFAULT_DIR_MODE w = (Ok tt, w1) ->
  ExtractFile Quote tr hdr dir w =
    Mknod (Join dir (Name hdr))
      (Z.lor (FileInfo_Mode hdr)
             (if Ascii.eqb (Typeflag hdr) TypeChar then S_IFCHR else S_IFBLK))
      (makedev (Int.to_int (Devmajor hdr)) (Int.to_int (Devminor hdr))) w1.
Proof.
  intros Htyp H. unfold ExtractFile. unfold bind at 1. rewrite H.
  destruct Htyp as [-> | ->]; reflexivity.
Qed.

(** A major of twelve bits and a minor of twenty are the numbers that fit
    the kernel's 32-bit device number: their encoding has no bit above it. *)
Lemma dev_encoding_low32 major minor :
  0 <= major < 2 ^ 12 -> 0 <= minor < 2 ^ 20 ->
  Z.land (dev_encoding major minor) 0xffffffff = dev_encoding major minor.
Proof.
  intros Hmajor Hminor. apply Z.bits_inj'. intros i Hi.
  change 0xffffffff with (Z.ones 32). rewrite testbit_land_low by lia.
  destruct (Z.ltb_spec i 32) as [Hlt | Hge]; [apply andb_true_r|].
  rewrite andb_false_r, dev_encoding_testbit by lia.
  rewrite (testbit_small_const minor 20 (i - 12)) by lia.
  destruct (Z.ltb_spec i 8); [lia|].
  destruct (Z.ltb_spec (i - 8) 12); [lia|].
  destruct (Z.ltb_spec (i - 32) 12) as [Hlow | Hhigh].
  - rewrite !andb_false_r. reflexivity.
  - rewrite (testbit_small_const major 12 (i - 32)) by lia.
    rewrite !andb_false_r. reflexivity.
Qed.

Lemma makedev_within_32_bits major minor :
  0 <= major < 2 ^ 12 -> 0 <= minor < 2 ^ 20 ->
  makedev major minor = dev_encoding major minor /\
  Z.land (makedev major minor) 0xffffffff = makedev major minor.
Proof.
  intros Hmajor Hminor.
  pose proof (dev_encoding_low32 major minor Hmajor Hminor) as Hlow.
  assert (Hrange : 0 <= dev_encoding major minor < 2 ^ 32).
  { rewrite <- Hlow. change 0xffffffff with (Z.ones 32).
    rewrite Z.land_ones by lia. apply Z.mod_pos_bound. lia. }
  assert (Hexact : makedev major minor = dev_encoding major minor).
  { apply makedev_exact. unfold Int.in_int. lia. }
  split; [exact Hexact|]. rewrite Hexact. exact Hlow.
Qed.

(** X8.  A character or block device entry that [ExtractFile] extracts
    leaves at the target path a device node of that type, with the nine
    permission bits of the entry less the umask (setuid, setgid and sticky are
    not carried over), whose device number is the low 32 bits of
    [makedev major minor], all that [mknod] takes.  For a major within twelve
    bits and a minor within twenty, the numbers the kernel has room for, these
    are all of [makedev major minor], and the number read back gives the major
    and the minor of the entry. *)
Theorem device_node_created :
  forall Quote tr hdr dir w w',
    Typeflag hdr = TypeChar \/ Typeflag hdr = TypeBlock ->
    ExtractFile Quote tr hdr dir w = (Ok tt, w') ->
    let dev := makedev (Int.to_int (Devmajor hdr)) (Int.to_int (Devminor hdr)) in
    lookup w' (Join dir (Name hdr)) =
      Some (IDev (Z.lor (device_kind (Typeflag hdr))
                        (Z.land (Z.land (Mode hdr) 0x1ff) (Z.lnot (umask w))))
                 (Z.land dev 0xffffffff)) /\
    (0 <= Devmajor hdr < 2 ^ 12 -> 0 <= Devminor hdr < 2 ^ 20 ->
     Z.land dev 0xffffffff = dev /\
     dev_major dev = Devmajor hdr /\ dev_minor dev = Devminor hdr).
Proof.
  intros Quote tr hdr dir w w' Htyp Hrun. cbv zeta. split.
  - set (p := Join dir (Name hdr)) in *.
    destruct (MkdirAll (Dir p) DEFAULT_DIR_MODE w) as [[[]|e] w1] eqn:Hparent.
    2: { rewrite (ExtractFile_parent_fails Quote tr hdr dir w e w1 Hparent) in Hrun.
         discriminate. }
    rewrite (ExtractFile_device Quote tr hdr dir w w1 Htyp Hparent) in Hrun.
    fold p in Hrun. fold (device_kind (Typeflag hdr)) in Hrun.
    apply MkdirAll_spec in Hparent as [(_ & Hum & _) _].
    assert (Hkind : Z.land (device_kind (Typeflag hdr)) 0xffff = device_kind (Typeflag hdr) /\
                    Z.land (device_kind (Typeflag hdr)) S_IFMT = device_kind (Typeflag hdr) /\
                    Z.land (device_kind (Typeflag hdr)) 0xfff = 0).
    { unfold device_kind. destruct (Ascii.eqb (Typeflag hdr) TypeChar); repeat split. }
    destruct Hkind as (H16 & Hfmt & Hperm).
    destruct (Mknod_device_mode w1 hdr _ H16 Hfmt Hperm) as [Hk Hmask].
    unfold Mknod in Hrun. rewrite Hk, Hmask in Hrun.
    replace ((device_kind (Typeflag hdr) =? S_IFCHR) || (device_kind (Typeflag hdr) =? S_IFBLK))
      with true in Hrun
      by (unfold device_kind; destruct (Ascii.eqb (Typeflag hdr) TypeChar); reflexivity).
    cbn [negb] in Hrun.
    destruct (refusal w1 p) eqn:Hr; [discriminate|].
    injection Hrun as <-. apply refusal_None in Hr as [Hne _].
    unfold lookup. rewrite Hne, Hum.
    change (key (add_node _ _ w1) p) with (key w1 p).
    apply node_at_add_node_same.
  - intros Hmajor Hminor.
    rewrite !IntFacts.to_int_small by (unfold Int.in_int; lia).
    destruct (makedev_within_32_bits _ _ Hmajor Hminor) as [Hexact Hlow].
    split; [exact Hlow|]. rewrite Hexact.
    split; [apply dev_major_encoding | apply dev_minor_encoding]; lia.
Qed.

(** The entry [wide_major] extracts, and the node it leaves has the device
    number 5: the major 4096 lies in the bits of [makedev 4096 5] that [mknod]
    does not take. *)
Example device_number_beyond_32_bits :
  let run := ExtractFile quote_plain no_content wide_major "/tmp/out" empty_out in
  makedev 4096 5 = 0x100000000005 /\
  fst run = Ok tt /\
  lookup (snd run) "/tmp/out/wide" = Some (IDev (Z.lor S_IFCHR 0x1a4) 5).
Proof. vm_compute. repeat split; reflexivity. Qed.

(** ** Links and device nodes never replace what is there *)

Lemma refusal_existing w path n :
  lookup w path = Some n -> refusal w path = Some EEXIST.
Proof.
  unfold lookup, refusal, creatable, node_at.
  destruct (String.eqb path ""); [discriminate|].
  destruct (names w !! key w path); [reflexivity | discriminate].
Qed.

Lemma Symlink_refused oldname newname w e :
  refusal w newname = Some e ->
  exists e', Symlink oldname newname w = (Err e', w).
Proof.
  intros Hr. unfold Symlink. destruct (String.eqb oldname ""); [eauto|].
  rewrite Hr. eauto.
Qed.

Lemma Link_refused oldname newname w e :
  refusal w newname = Some e ->
  exists e', Link oldname newname w = (Err e', w).
Proof.
  intros Hr. unfold Link. destruct (String.eqb oldname ""); [eauto|].
  destruct (names w !! key w oldname) as [i|]; [|eauto].
  destruct (inodes w !! i) as [[m|m c|t|m d]|]; rewrite ?Hr; eauto.
Qed.

Lemma Mknod_refused path mode dev w e :
  refusal w path = Some e ->
  exists e', Mknod path mode dev w = (Err e', w).
Proof.
  intros Hr. unfold Mknod. destruct (negb _); [eauto|]. rewrite Hr. eauto.
Qed.

(** X9.  Links and device nodes never replace what is there: when something
    exists at the target path, a hard-link, symbolic-link, character-device or
    block-device entry fails and the object is still there. *)
Theorem existing_object_not_replaced :
  forall Quote tr hdr dir w r w' n,
    Typeflag hdr = TypeLink \/ Typeflag hdr = TypeSymlink \/
    Typeflag hdr = TypeChar \/ Typeflag hdr = TypeBlock ->
    lookup w (Join dir (Name hdr)) = Some n ->
    ExtractFile Quote tr hdr dir w = (r, w') ->
    r <> Ok tt /\ lookup w' (Join dir (Name hdr)) = Some n.
Proof.
  intros Quote tr hdr dir w r w' n Htyp Hthere Hrun.
  set (p := Join dir (Name hdr)) in *.
  destruct (MkdirAll (Dir p) DEFAULT_DIR_MODE w) as [[[]|e] w1] eqn:Hparent.
  2: { rewrite (ExtractFile_parent_fails Quote tr hdr dir w e w1 Hparent) in Hrun.
       injection Hrun as <- <-. split; [discriminate|].
       apply MkdirAll_spec in Hparent as [Hg _].
       eapply lookup_only_adds_dirs; eassumption. }
  assert (Hthere1 : lookup w1 p = Some n).
  { pose proof Hparent as Hp. apply MkdirAll_spec in Hp as [Hg _].
    eapply lookup_only_adds_dirs; eassumption. }
  pose proof (refusal_existing _ _ _ Hthere1) as Hr.
  assert (Hfail : exists e', ExtractFile Quote tr hdr dir w = (Err e', w1)).
  { destruct Htyp as [Htyp | [Htyp | Htyp]].
    - rewrite (ExtractFile_link Quote tr hdr dir w w1 Htyp Hparent). fold p.
      destruct (HasPrefix _ dir); [|eauto].
      eapply Link_refused, Hr.
    - rewrite (ExtractFile_symlink Quote tr hdr dir w w1 Htyp Hparent). fold p.
      destruct (HasPrefix _ dir); [|eauto].
      eapply Symlink_refused, Hr.
    - rewrite (ExtractFile_device Quote tr hdr dir w w1 Htyp Hparent). fold p.
      eapply Mknod_refused, Hr. }
  destruct Hfail as [e' Hfail]. rewrite Hfail in Hrun. injection Hrun as <- <-.
  split; [discriminate | exact Hthere1].
Qed.

(** ** Extracting an entry a second time *)

Lemma MkdirAll_existing path perm w m :
  lookup w path = Some (IDir m) -> MkdirAll path perm w = (Ok tt, w).
Proof.
  intros H. unfold MkdirAll. cbn [MkdirAll_rec]. unfold Stat. rewrite H.
  reflexivity.
Qed.

Lemma MkdirAll_again path perm perm' w w1 :
  MkdirAll path perm w = (Ok tt, w1) -> MkdirAll path perm' w1 = (Ok tt, w1).
Proof.
  intros H. apply MkdirAll_spec in H as [_ Hdir].
  destruct (Hdir eq_refl) as [m Hm]. eapply MkdirAll_existing, Hm.
Qed.

Lemma with_inodes_same w i n :
  inodes w !! i = Some n -> with_inodes (<[i := n]>) w = w.
Proof.
  intros H. destruct w as [ns tbl c u]. unfold with_inodes; simpl in *.
  rewrite insert_id by exact H. reflexivity.
Qed.

(** X10.  Extracting a directory entry again changes nothing: from the world
    a successful extraction left, the same entry extracts again and leaves
    that world as it is. *)
Theorem directory_entry_again :
  forall Quote tr hdr dir w w',
    Typeflag hdr = TypeDir ->
    ExtractFile Quote tr hdr dir w = (Ok tt, w') ->
    forall tr', ExtractFile Quote tr' hdr dir w' = (Ok tt, w').
Proof.
  intros Quote tr hdr dir w w' Htyp Hrun tr'.
  set (p := Join dir (Name hdr)) in *.
  (* what the first run left *)
  assert (Hparent' : exists m, lookup w' (Dir p) = Some (IDir m)).
  { destruct (MkdirAll (Dir p) DEFAULT_DIR_MODE w) as [[[]|e1] w1] eqn:H1.
    - pose proof (ExtractFile_after_parent _ _ _ _ _ _ _ _ H1 Hrun) as Hrest.
      apply MkdirAll_spec in H1 as [_ Hdir]. destruct (Hdir eq_refl) as [m Hm].
      eapply lookup_undisturbed_dir; eassumption.
    - rewrite (ExtractFile_parent_fails Quote tr hdr dir w e1 w1 H1) in Hrun.
      discriminate. }
  assert (Hp' : lookup w' p = Some (IDir (Z.land (Mode hdr) 0xfff))).
  { clear Hparent'.
    destruct (MkdirAll (Dir p) DEFAULT_DIR_MODE w) as [[[]|e1] w1] eqn:H1.
    2: { rewrite (ExtractFile_parent_fails Quote tr hdr dir w e1 w1 H1) in Hrun.
         discriminate. }
    rewrite (ExtractFile_directory Quote tr hdr dir w w1 Htyp H1) in Hrun.
    fold p in Hrun. unfold bind in Hrun.
    destruct (MkdirAll p (FileInfo_Mode hdr) w1) as [[[]|e2] w2] eqn:H2;
      [|discriminate].
    destruct (Open p w2) as [[d|e3] w3] eqn:HO; [|discriminate].
    apply Open_Ok in HO as (-> & Hne & Hname & n & Hino).
    apply MkdirAll_spec in H2 as [_ Hdir].
    destruct (Hdir eq_refl) as [m0 Hm0].
    unfold lookup in Hm0. rewrite Hne in Hm0. unfold node_at in Hm0.
    rewrite Hname, Hino in Hm0. injection Hm0 as ->.
    unfold Chmod in Hrun. rewrite Hino in Hrun. cbn in Hrun.
    injection Hrun as <-.
    rewrite syscallMode_FileInfo_Mode, land_submask by reflexivity.
    apply lookup_update_inode; assumption. }
  (* the second run *)
  destruct Hparent' as [m Hm].
  rewrite (ExtractFile_directory Quote tr' hdr dir w' w' Htyp
             (MkdirAll_existing _ _ _ _ Hm)).
  fold p. unfold bind. rewrite (MkdirAll_existing _ _ _ _ Hp').
  unfold lookup in Hp'. destruct (String.eqb p "") eqn:Hne; [discriminate|].
  unfold node_at in Hp'.
  destruct (names w' !! key w' p) as [i|] eqn:Hname; [|discriminate].
  unfold Open, OpenFile. rewrite Hne, Hname, Hp'.
  change (wants_write O_RDONLY || has_bit O_RDONLY O_CREATE) with false.
  cbn iota. unfold Chmod. cbn [file_ino]. rewrite Hp'.
  rewrite syscallMode_FileInfo_Mode, land_submask by reflexivity.
  rewrite with_inodes_same by exact Hp'. reflexivity.
Qed.

(** ** Regular files, run by run *)

Lemma ExtractFile_regular Quote tr hdr dir w w1 :
  is_regular (Typeflag hdr) = true ->
  MkdirAll (Dir (Join dir (Name hdr))) DEFAULT_DIR_MODE w = (Ok tt, w1) ->
  ExtractFile Quote tr hdr dir w =
    match OpenFile (Join dir (Name hdr)) (Z.lor O_CREATE O_RDWR)
                   (FileInfo_Mode hdr) w1 with
    | (Err e, w2) => (Err e, w2)
    | (Ok f, w2) =>
        match Copy f tr w2 with
        | (Err e, w3) => (Err e, w3)
        | (Ok _, w3) => (Ok tt, w3)
        end
    end.
Proof.
  intros Hreg H. unfold ExtractFile, bind. unfold is_regular in Hreg.
  rewrite H, Hreg, (MkdirAll_again _ _ _ _ _ H).
  destruct (OpenFile _ _ _ w1) as [[f|e] w2]; [|reflexivity].
  destruct (Copy f tr w2) as [[[]|e] w3]; reflexivity.
Qed.

(** An opened file is found under its name. *)
Lemma OpenFile_create_rdwr_named name perm w f w' :
  OpenFile name (Z.lor O_CREATE O_RDWR) perm w = (Ok f, w') ->
  String.eqb name "" = false /\
  names w' !! key w' name = Some (file_ino f) /\
  exists m old, inodes w' !! file_ino f = Some (IReg m old) /\
    ((w' = w /\ lookup w name = Some (IReg m old)) \/
     (names w !! key w name = None /\ old = [] /\
      m = masked w (syscallMode perm) 0xfff)).
Proof.
  intros H. apply OpenFile_create_rdwr in H as [Hne Hcases]. split; [exact Hne|].
  destruct Hcases as [(m & old & Hname & Hino & ->) | (Hfree & Hfresh & ->)].
  - split; [exact Hname|]. exists m, old. split; [exact Hino|]. left.
    split; [reflexivity|]. unfold lookup, node_at. rewrite Hne, Hname. exact Hino.
  - rewrite Hfresh. split; [simpl; apply lookup_insert_eq|].
    eexists _, _. split; [simpl; apply lookup_insert_eq|]. right. auto.
Qed.

Lemma drop_own_prefix {A} (l rest : list A) : drop (length l) (l ++ rest) = rest.
Proof. induction l as [|x l IH]; simpl; [reflexivity | exact IH]. Qed.

(** X11.  Extracting a regular-file entry again changes nothing: from the
    world a successful extraction left, the same entry with the same content
    extracts again and leaves that world as it is. *)
Theorem regular_entry_again :
  forall Quote tr hdr dir w w',
    is_regular (Typeflag hdr) = true ->
    ExtractFile Quote tr hdr dir w = (Ok tt, w') ->
    ExtractFile Quote tr hdr dir w' = (Ok tt, w').
Proof.
  intros Quote tr hdr dir w w' Hreg Hrun.
  set (p := Join dir (Name hdr)) in *.
  destruct (MkdirAll (Dir p) DEFAULT_DIR_MODE w) as [[[]|e1] w1] eqn:H1.
  2: { rewrite (ExtractFile_parent_fails Quote tr hdr dir w e1 w1 H1) in Hrun.
       discriminate. }
  assert (Hparent' : exists m, lookup w' (Dir p) = Some (IDir m)).
  { pose proof (ExtractFile_after_parent _ _ _ _ _ _ _ _ H1 Hrun) as Hrest.
    pose proof H1 as Hp. apply MkdirAll_spec in Hp as [_ Hdir].
    destruct (Hdir eq_refl) as [m Hm].
    eapply lookup_undisturbed_dir; eassumption. }
  rewrite (ExtractFile_regular Quote tr hdr dir w w1 Hreg H1) in Hrun. fold p in Hrun.
  destruct (OpenFile p _ _ w1) as [[f|e2] w2] eqn:HO; [|discriminate].
  destruct (Copy f tr w2) as [[[]|e3] w3] eqn:HC; [|discriminate].
  injection Hrun as <-.
  apply OpenFile_create_rdwr_named in HO as (Hne & Hname & _).
  apply Copy_Ok in HC as (Hread & m & old & Hino & ->).
  destruct Hparent' as [md Hmd].
  rewrite (ExtractFile_regular Quote tr hdr dir _ _ Hreg
             (MkdirAll_existing _ _ _ _ Hmd)). fold p.
  set (new := data tr ++ drop (length (data tr)) old) in *.
  set (w' := with_inodes (<[file_ino f := IReg m new]>) w2) in *.
  assert (Hname' : names w' !! key w' p = Some (file_ino f)) by exact Hname.
  assert (Hino' : inodes w' !! file_ino f = Some (IReg m new)).
  { unfold w'. simpl. apply lookup_insert_eq. }
  unfold OpenFile. rewrite Hne, Hname', Hino'.
  change (has_bit (Z.lor O_CREATE O_RDWR) O_TRUNC) with false. cbn [andb].
  unfold Copy. cbn [file_ino]. rewrite Hino', Hread.
  unfold new at 1. rewrite drop_own_prefix. fold new.
  rewrite with_inodes_same by exact Hino'. reflexivity.
Qed.

(** X12.  Under [ExtractTar] the umask of the process plays no part: a
    regular file created by a one-entry archive where nothing was has exactly
    the low twelve mode bits of the entry, and the bytes of its content. *)
Theorem ExtractTar_new_file_mode :
  forall Quote tr hdr dir w w',
    is_regular (Typeflag hdr) = true ->
    lookup w (Join dir (Name hdr)) = None ->
    ExtractTar Quote (mkReader [(hdr, tr)] None) dir w = (Ok tt, w') ->
    lookup w' (Join dir (Name hdr)) =
      Some (IReg (Z.land (Mode hdr) 0xfff) (data tr)).
Proof.
  intros Quote tr hdr dir w w' Hreg Hfree. rewrite ExtractTar_unfold.
  cbn [entries ending extract_entries]. cbv zeta.
  set (p := Join dir (Name hdr)) in *.
  set (w0 := with_umask (Z.land 0 511) w).
  destruct (ExtractFile Quote tr hdr dir w0) as [[[]|e] wx] eqn:Hrun;
    cbn [fst snd ret]; [|discriminate].
  intros [= <-]. rewrite lookup_with_umask.
  destruct (MkdirAll (Dir p) DEFAULT_DIR_MODE w0) as [[[]|e1] w1] eqn:H1.
  2: { rewrite (ExtractFile_parent_fails Quote tr hdr dir w0 e1 w1 H1) in Hrun.
       discriminate. }
  rewrite (ExtractFile_regular Quote tr hdr dir w0 w1 Hreg H1) in Hrun. fold p in Hrun.
  destruct (OpenFile p _ _ w1) as [[f|e2] w2] eqn:HO; [|discriminate].
  destruct (Copy f tr w2) as [[[]|e3] w3] eqn:HC; [|discriminate].
  injection Hrun as <-.
  apply MkdirAll_spec in H1 as [Hg _].
  apply OpenFile_create_rdwr_named in HO
    as (Hne & Hname & m & old & Hino & Hcases).
  apply Copy_Ok in HC as (Hread & m' & old' & Hino' & ->).
  rewrite Hino in Hino'. injection Hino' as <- <-.
  destruct Hcases as [[-> Hthere] | (Hnone & -> & ->)].
  - exfalso. destruct Hg as (Hc & _ & Hnodes).
    unfold lookup in Hthere, Hfree. rewrite Hne in Hthere, Hfree.
    rewrite (key_same_cwd w0 w1 p Hc) in Hthere.
    change (key w0 p) with (key w p) in Hthere.
    destruct (Hnodes (key w p)) as [E | [_ E]];
      change (node_at w0 (key w p)) with (node_at w (key w p)) in *; congruence.
  - rewrite drop_nil, app_nil_r.
    rewrite syscallMode_FileInfo_Mode, masked_twelve_bits.
    destruct Hg as (_ & Hum & _). rewrite Hum. cbn [umask w0 with_umask].
    change (Z.lnot (Z.land 0 511)) with (-1). rewrite Z.land_m1_r.
    apply lookup_update_inode; assumption.
Qed.

(** X13.  When the content of a regular-file entry cannot be read to the end
    and the file could be opened, [ExtractFile] returns the error of the read
    as it is, and the bytes read before the failure stay written in the file
    (nothing is removed). *)
Theorem failed_copy_leaves_the_bytes_read :
  forall Quote tr hdr dir w w1 f w2 e,
    is_regular (Typeflag hdr) = true ->
    read_err tr = Some e ->
    MkdirAll (Dir (Join dir (Name hdr))) DEFAULT_DIR_MODE w = (Ok tt, w1) ->
    OpenFile (Join dir (Name hdr)) (Z.lor O_CREATE O_RDWR) (FileInfo_Mode hdr) w1 =
      (Ok f, w2) ->
    exists w' m old,
      ExtractFile Quote tr hdr dir w = (Err e, w') /\
      lookup w2 (Join dir (Name hdr)) = Some (IReg m old) /\
      lookup w' (Join dir (Name hdr)) =
        Some (IReg m (data tr ++ drop (length (data tr)) old)).
Proof.
  intros Quote tr hdr dir w w1 f w2 e Hreg Hread H1 HO.
  rewrite (ExtractFile_regular Quote tr hdr dir w w1 Hreg H1), HO.
  apply OpenFile_create_rdwr_named in HO as (Hne & Hname & m & old & Hino & _).
  unfold Copy. rewrite Hino, Hread.
  eexists _, m, old. split; [reflexivity|]. split.
  - unfold lookup, node_at. rewrite Hne, Hname. exact Hino.
  - apply lookup_update_inode; assumption.
Qed.

(** ** ExtractFileFromTar, what it returns and what it does not read *)

(** X14.  Bytes that [ExtractFileFromTar] returns are the whole content of
    an entry of the archive that is a regular file and whose cleaned name is
    the cleaned wanted name. *)
Theorem ExtractFileFromTar_returns_an_entry :
  forall tr file buf,
    ExtractFileFromTar tr file = Ok buf ->
    exists hdr content,
      In (hdr, content) (entries tr) /\
      Clean (Name hdr) = Clean file /\
      is_regular (Typeflag hdr) = true /\
      read_err content = None /\
      data content = buf.
Proof.
  intros [es ending] file buf. unfold ExtractFileFromTar. cbn [entries Tar.ending].
  induction es as [|[hdr content] rest IH]; simpl.
  - destruct ending; discriminate.
  - destruct (String.eqb (Clean (Name hdr)) (Clean file)) eqn:Hname; cbn [negb].
    + destruct (is_regular (Typeflag hdr)) eqn:Hreg; cbn [negb]; [|discriminate].
      unfold ReadAll. destruct (read_err content) eqn:Hread; [discriminate|].
      intros [= <-]. exists hdr, content. apply String.eqb_eq in Hname. auto.
    + intros H. destruct (IH H) as (h & c & Hin & Hrest).
      exists h, c. split; [right; exact Hin | exact Hrest].
Qed.

(** X15.  [ExtractFileFromTar] reads up to the first entry of the wanted
    name: the entries before it, and everything after it (entries, a broken
    end of the stream), have no influence on the result. *)
Theorem ExtractFileFromTar_reads_to_the_first_match :
  forall pre hdr content rest ending file,
    Forall (fun entry => names_file file entry = false) pre ->
    names_file file (hdr, content) = true ->
    ExtractFileFromTar (mkReader (pre ++ (hdr, content) :: rest) ending) file =
    ExtractFileFromTar (mkReader [(hdr, content)] None) file.
Proof.
  intros pre hdr content rest ending file Hpre Hmatch.
  unfold ExtractFileFromTar. cbn [entries Tar.ending].
  induction Hpre as [|[h c] pre Hh Hpre IH]; simpl.
  - unfold names_file in Hmatch. cbn [fst] in Hmatch. rewrite Hmatch. reflexivity.
  - unfold names_file in Hh. cbn [fst] in Hh. rewrite Hh. exact IH.
Qed.

(** ** The further properties on concrete inputs *)

Lemma makedev_injective_witness : 8 = 8 /\ 1 = 1.
Proof. apply (makedev_injective 8 1 8 1); first [lia | reflexivity]. Defined.

Lemma makedev_classic_witness : makedev 8 1 = 8 * 256 + 1.
Proof. apply makedev_classic; lia. Defined.

(** [d/] then [d/f.txt], as one archive and as two. *)
Lemma ExtractTar_concatenation_witness :
  ExtractTar quote_plain
    (mkReader ([(dir_d, no_content)] ++ [(file_d_f, hello)]) None)
    "/tmp/out" empty_out =
  ExtractTar quote_plain (mkReader [(file_d_f, hello)] None) "/tmp/out"
    (snd (ExtractTar quote_plain (mkReader [(dir_d, no_content)] None)
            "/tmp/out" empty_out)).
Proof.
  apply ExtractTar_concatenation. vm_compute. reflexivity.
Defined.

(** A FIFO entry fails; the directory entry after it is not looked at. *)
Lemma ExtractTar_stops_at_first_failure_witness :
  ExtractTar quote_plain
    (mkReader ([(fifo_in_new_dir, no_content)] ++ [(dir_d, no_content)]) None)
    "/tmp/out" empty_out =
  (Err (errorString "error extracting tarball: unsupported type: 54"),
   snd (ExtractTar quote_plain (mkReader [(fifo_in_new_dir, no_content)] None)
          "/tmp/out" empty_out)).
Proof.
  apply ExtractTar_stops_at_first_failure. vm_compute. reflexivity.
Defined.

Lemma ExtractTar_broken_stream_witness :
  ExtractTar quote_plain
    (mkReader [(dir_d, no_content)] (Some (errorString "unexpected EOF")))
    "/tmp/out" empty_out =
  (Err (wrap_extracting (errorString "unexpected EOF")),
   snd (ExtractTar quote_plain (mkReader [(dir_d, no_content)] None)
          "/tmp/out" empty_out)).
Proof.
  apply ExtractTar_broken_stream. vm_compute. reflexivity.
Defined.

(** The directory [/tmp/out/d] across an extraction that rewrites
    [/tmp/out/f]. *)
Lemma ExtractTar_keeps_what_is_there_witness :
  exists n',
    lookup (snd (ExtractTar quote_plain (mkReader [(pre_existing_f, bye)] None)
                   "/tmp/out" used_out)) "/tmp/out/d" = Some n' /\
    same_kind (IDir 0x1c0) n'.
Proof.
  apply (ExtractTar_keeps_what_is_there quote_plain
           (mkReader [(pre_existing_f, bye)] None) "/tmp/out" used_out
           (fst (ExtractTar quote_plain (mkReader [(pre_existing_f, bye)] None)
                   "/tmp/out" used_out))).
  - apply surjective_pairing.
  - reflexivity.
Defined.

(** The hard link [h] to the file [f] of [used_out]. *)
Lemma hard_link_shares_the_file_witness :
  let w' := snd (ExtractFile quote_plain no_content link_to_f "/tmp/out" used_out) in
  exists i n,
    names w' !! key w' (Join "/tmp/out" (Name link_to_f)) = Some i /\
    names w' !! key w' (Join "/tmp/out" (Linkname link_to_f)) = Some i /\
    inodes w' !! i = Some n /\ IsDir n = false /\
    lookup w' (Join "/tmp/out" (Name link_to_f)) = Some n /\
    lookup w' (Join "/tmp/out" (Linkname link_to_f)) = Some n.
Proof.
  apply (hard_link_shares_the_file quote_plain no_content link_to_f "/tmp/out"
           used_out).
  - reflexivity.
  - vm_compute. reflexivity.
Defined.

(** [null] under umask 022: a character device of mode 0644 and number
    0x103, which reads back as major 1 and minor 3. *)
Lemma device_node_created_witness :
  lookup (snd (ExtractFile quote_plain no_content dev_null "/tmp/out" empty_out))
         (Join "/tmp/out" (Name dev_null)) =
    Some (IDev (Z.lor (device_kind (Typeflag dev_null))
                      (Z.land (Z.land (Mode dev_null) 0x1ff)
                              (Z.lnot (umask empty_out))))
               (Z.land (makedev (Int.to_int 1) (Int.to_int 3)) 0xffffffff)) /\
  Z.land (makedev (Int.to_int 1) (Int.to_int 3)) 0xffffffff =
    makedev (Int.to_int 1) (Int.to_int 3) /\
  dev_major (makedev (Int.to_int 1) (Int.to_int 3)) = 1 /\
  dev_minor (makedev (Int.to_int 1) (Int.to_int 3)) = 3.
Proof.
  assert (Hrun : ExtractFile quote_plain no_content dev_null "/tmp/out" empty_out =
                 (Ok tt, snd (ExtractFile quote_plain no_content dev_null
                                "/tmp/out" empty_out)))
    by (vm_compute; reflexivity).
  destruct (device_node_created quote_plain no_content dev_null "/tmp/out"
              empty_out _ (or_introl eq_refl) Hrun) as [Hnode Hnumber].
  split; [exact Hnode|]. apply Hnumber; simpl; lia.
Defined.

(** A symbolic link named [f] where the file [f] is. *)
Lemma existing_object_not_replaced_witness :
  fst (ExtractFile quote_plain no_content symlink_named_f "/tmp/out" used_out)
    <> Ok tt /\
  lookup (snd (ExtractFile quote_plain no_content symlink_named_f "/tmp/out"
                 used_out))
         (Join "/tmp/out" (Name symlink_named_f)) =
    Some (IReg 0x180 (bytes "hello world")).
Proof.
  apply (existing_object_not_replaced quote_plain no_content symlink_named_f
           "/tmp/out" used_out).
  - right. left. reflexivity.
  - reflexivity.
  - apply surjective_pairing.
Defined.

Lemma directory_entry_again_witness :
  let w' := snd (ExtractFile quote_plain no_content dir_d "/tmp/out" empty_out) in
  ExtractFile quote_plain no_content dir_d "/tmp/out" w' = (Ok tt, w').
Proof.
  apply (directory_entry_again quote_plain no_content dir_d "/tmp/out" empty_out).
  - reflexivity.
  - vm_compute. reflexivity.
Defined.

Lemma regular_entry_again_witness :
  let w' := snd (ExtractFile quote_plain hello file_d_f "/tmp/out" empty_out) in
  ExtractFile quote_plain hello file_d_f "/tmp/out" w' = (Ok tt, w').
Proof.
  apply (regular_entry_again quote_plain hello file_d_f "/tmp/out" empty_out).
  - reflexivity.
  - vm_compute. reflexivity.
Defined.

(** A file of mode 0666 under a process umask of 022: mode 0666. *)
Lemma ExtractTar_new_file_mode_witness :
  lookup (snd (ExtractTar quote_plain (mkReader [(public_file, hello)] None)
                 "/tmp/out" empty_out))
         (Join "/tmp/out" (Name public_file)) =
  Some (IReg (Z.land (Mode public_file) 0xfff) (data hello)).
Proof.
  apply (ExtractTar_new_file_mode quote_plain hello public_file "/tmp/out"
           empty_out).
  - reflexivity.
  - reflexivity.
  - vm_compute. reflexivity.
Defined.

(** A new file [g] whose content breaks after two bytes. *)
Lemma failed_copy_leaves_the_bytes_read_witness :
  let w2 := snd (OpenFile "/tmp/out/g" (Z.lor O_CREATE O_RDWR)
                   (FileInfo_Mode public_file) empty_out) in
  exists w' m old,
    ExtractFile quote_plain cut_short public_file "/tmp/out" empty_out =
      (Err (errorString "unexpected EOF"), w') /\
    lookup w2 (Join "/tmp/out" (Name public_file)) = Some (IReg m old) /\
    lookup w' (Join "/tmp/out" (Name public_file)) =
      Some (IReg m (data cut_short ++ drop (length (data cut_short)) old)).
Proof.
  apply (failed_copy_leaves_the_bytes_read quote_plain cut_short public_file
           "/tmp/out" empty_out empty_out (mkFile 3 "/tmp/out/g")).
  - reflexivity.
  - reflexivity.
  - vm_compute. reflexivity.
  - vm_compute. reflexivity.
Defined.

Lemma ExtractFileFromTar_returns_an_entry_witness :
  exists hdr content,
    In (hdr, content) (entries archive_a) /\
    Clean (Name hdr) = Clean "a/b.txt" /\
    is_regular (Typeflag hdr) = true /\
    read_err content = None /\
    data content = bytes "hello".
Proof.
  apply ExtractFileFromTar_returns_an_entry. reflexivity.
Defined.

(** [a/b.txt] behind a directory entry and before a broken end. *)
Lemma ExtractFileFromTar_reads_to_the_first_match_witness :
  ExtractFileFromTar
    (mkReader ([(dir_d, no_content)] ++
               (mkHeader "a/b.txt" 0x1a4 TypeReg "" 0 0, hello) ::
               [(fifo_in_new_dir, no_content)])
              (Some (errorString "unexpected EOF")))
    "./a//b.txt" =
  ExtractFileFromTar
    (mkReader [(mkHeader "a/b.txt" 0x1a4 TypeReg "" 0 0, hello)] None)
    "./a//b.txt".
Proof.
  apply ExtractFileFromTar_reads_to_the_first_match.
  - constructor; [reflexivity | constructor].
  - reflexivity.
Defined.
